(** * TethysAPI: a shallow embedding of the binding layer

    The repository is a header-only C++ layer over a fixed host executable.
    This development embeds the parts of [Common/Util.h], [API/Game.h],
    [API/GameMap.h], [API/Trigger.h], [API/Enumerators.h] and
    [Game/TubeConnection.h] that carry behaviour, and proves properties of
    them.

    - [Util]      : the bit helpers, on unsigned values held in [Z].
    - [Host]      : programs that talk to the host executable, as a free
                    monad over host accesses, run against an arbitrary host.
    - [TubeConnectionManager], [TubeConnection], [GameMap], [Game],
      [Trigger]   : the methods, written in that monad.
    - [Enumerators] : the player unit iterators over the host's linked
                    lists, with the host memory as a finite map.

    The definitions come first; the modules named [..Facts] hold the
    properties.  What the modelled files take from headers outside them
    (constants, [Location] arithmetic, members of host classes) is a
    parameter ([Headers]) or a named host access ([Extern]). *)

From Stdlib Require Import ZArith Lia Bool List String.
From stdpp Require Import base option gmap.
Import ListNotations.

Local Open Scope Z_scope.

(* ===================================================================== *)
(** * Common/Util.h *)
(* ===================================================================== *)

Module Util.

(** Conversion of a mathematical integer to an unsigned [w]-bit value. *)
Definition wrap (w z : Z) : Z := z mod 2 ^ w.

Definition in_range (w z : Z) : Prop := 0 <= z < 2 ^ w.

(** [template <typename M, typename F> void SetBitFlag(M& out, F flag, bool on)
      { out ^= (out ^ (on ? flag : 0)) & flag; }]
    for an unsigned [w]-bit [M]; the function returns the value left in
    [out]. *)
Definition SetBitFlag (w : Z) (out flag : Z) (on : bool) : Z :=
  wrap w (Z.lxor out (Z.land (Z.lxor out (if on then flag else 0)) flag)).

(** ** GetNextBit *)

(** The four bodies the preprocessor selects between. *)
Inductive Target : Set :=
| Win32_IX86   (* defined(_WIN32) && defined(_M_IX86) *)
| Win32_Other  (* defined(_WIN32)                     *)
| GNUC         (* defined(__GNUC__)                   *)
| Portable.    (* none of the above                   *)

(** Number of trailing zero bits of a positive number. *)
Fixpoint ctz_pos (p : positive) : Z :=
  match p with
  | xO q => 1 + ctz_pos q
  | _    => 0
  end.

(** [_tzcnt_u32]: trailing zero count, the operand size for a zero operand. *)
Definition _tzcnt_u32 (mask : Z) : Z :=
  match mask with
  | Zpos p => ctz_pos p
  | _      => 32
  end.

Section Intrinsics.

(** What a bit-scan intrinsic whose result is undefined for a zero operand
    leaves in its destination, as a function of the destination's previous
    content.  It depends on the compiler and the processor. *)
Variable undefined_scan : Z -> Z.

(** [_BitScanForward(&index, mask)]: the index left in the destination. *)
Definition _BitScanForward (index mask : Z) : Z :=
  match mask with
  | Zpos p => ctz_pos p
  | _      => undefined_scan index
  end.

(** [__builtin_ctz(mask)], assigned to a destination holding [index]. *)
Definition __builtin_ctz (index mask : Z) : Z :=
  match mask with
  | Zpos p => ctz_pos p
  | _      => undefined_scan index
  end.

(** [for (; (mask & 1) == 0; mask >>= 1, ++index);]
    returns the final [(mask, index)], or [None] when the fuel runs out. *)
Fixpoint scan_loop (fuel : nat) (mask index : Z) : option (Z * Z) :=
  match fuel with
  | O => None
  | S fuel' =>
      if Z.land mask 1 =? 0
      then scan_loop fuel' (Z.shiftr mask 1) (wrap 32 (index + 1))
      else Some (mask, index)
  end.

(** [inline bool GetNextBit(uint32* pIndex, uint32 mask)].
    [index] is the content of [*pIndex] at the call; the result is the
    returned flag and the content of [*pIndex] at the return.  Note that
    the portable body shifts the by-value parameter [mask], and the final
    test reads that shifted value. *)
Definition GetNextBit (fuel : nat) (target : Target) (index mask : Z)
  : option (bool * Z) :=
  let result := false in
  match
    match target with
    | Win32_IX86  => Some (mask, _tzcnt_u32 mask)
    | Win32_Other => Some (mask, _BitScanForward index mask)
    | GNUC        => Some (mask, __builtin_ctz index mask)
    | Portable    =>
        if negb (mask =? 0)
        then match scan_loop fuel mask 0 with
             | Some (mask', index') => Some (mask', index')
             | None => None
             end
        else Some (mask, index)
    end
  with
  | None => None
  | Some (mask', index') =>
      let result := if negb (mask' =? 0) then negb (mask' =? 0) else result in
      Some (result, index')
  end.

End Intrinsics.

(** [i] is the index of the least significant set bit of [mask]. *)
Definition lowest_set_bit (mask i : Z) : Prop :=
  0 <= i /\ Z.testbit mask i = true /\
  forall j, 0 <= j < i -> Z.testbit mask j = false.

End Util.

(* ===================================================================== *)
(** * Programs over the host executable *)
(* ===================================================================== *)

Module Host.

(** [Location] of API/Location.h: a pair of tile coordinates. *)
Record Location : Set := mkLocation { x : Z; y : Z }.

(** [MapRect] of API/Location.h. *)
Record MapRect : Set := mkMapRect { x1 : Z; y1 : Z; x2 : Z; y2 : Z }.

(** A value handed to the host as a call argument. *)
Inductive Val : Set :=
| VInt (z : Z)            (* int, ibool, enum class : int, pointer *)
| VStr (s : string)       (* const char*                           *)
| VLoc (l : Location)     (* Location passed by value              *)
| VRef (id : Z).          (* Unit&, const Trigger&, const ScGroup&:
                             a stub object, given by the id it holds *)

(** One access to the host process. *)
Inductive Access : Set :=
| OP2Thunk (addr : Z) (args : list Val)
    (* OP2Thunk<addr, Fn>(args...): call of the function at [addr] *)
| Thunk (addr : Z) (this : Z) (args : list Val)
    (* OP2Class::Thunk<addr, &$::Method>(args...): member call at [addr] *)
| OP2Mem (addr : Z)
    (* OP2Mem<addr, T>(): read of the object at [addr] *)
| Extern (name : string) (args : list Val)
    (* member or data member of a host class whose header is outside the
       modelled files (MapImpl, TerrainManager, Unit, _Player, Random,
       MineManager); [this] comes first in [args] *)
| Deref (ptr : Z).
    (* read through a pointer the host returned *)

(** What the host hands back: the returned value, and the id it stored
    through a [VRef] argument when it stored one. *)
Record Reply : Set := mkReply { ret : Z; stored : option Z }.

(** A program is a finite tree of host accesses. *)
Inductive Prog (R : Type) : Type :=
| Ret (r : R)
| Do (a : Access) (k : Reply -> Prog R).

Arguments Ret {R} r.
Arguments Do {R} a k.

Fixpoint bind {A B} (p : Prog A) (f : A -> Prog B) : Prog B :=
  match p with
  | Ret r  => f r
  | Do a k => Do a (fun r => bind (k r) f)
  end.

#[export] Instance Prog_ret : MRet Prog := @Ret.
#[export] Instance Prog_bind : MBind Prog := fun A B f p => bind p f.

Definition call (a : Access) : Prog Reply := Do a Ret.

(** A host: a state and its reaction to each access. *)
Record Model : Type := mkModel {
  state   : Type;
  respond : Access -> state -> Reply * state
}.

Record Event : Set := mkEvent { access : Access; reply : Reply }.

(** Outcome of a program against a host: the value returned, the host state
    left, and the accesses made, in order, with their replies. *)
Record Outcome (R S : Type) : Type :=
  mkOutcome { value : R; final : S; trace : list Event }.

Arguments mkOutcome {R S} value final trace.
Arguments value {R S} o.
Arguments final {R S} o.
Arguments trace {R S} o.

Fixpoint run {R} (H : Model) (p : Prog R) (s : state H) : Outcome R (state H) :=
  match p with
  | Ret r  => mkOutcome r s []
  | Do a k =>
      let '(r, s') := respond H a s in
      let o := run H (k r) s' in
      mkOutcome (value o) (final o) (mkEvent a r :: trace o)
  end.

(** [ibool] of a C++ [bool], and the [bool] of an [ibool] or pointer. *)
Definition ibool_of (b : bool) : Z := if b then 1 else 0.
Definition truthy (z : Z) : bool := negb (z =? 0).

(** Constants and helpers declared in headers outside the modelled files.
    The embedding is parametric in them. *)
Record Headers : Type := mkHeaders {
  Unit_null         : Z;     (* id_ of a default-constructed Unit   *)
  MapID_Any         : Z;
  MapID_CargoTruck  : Z;
  MapID_MagmaVent   : Z;
  MapID_Fumarole    : Z;
  MapID_MiningBeacon: Z;
  OreType_Random    : Z;
  OreType_Common    : Z;
  OreType_Rare      : Z;
  OreYield_Random   : Z;
  OreYield_Bar3     : Z;
  OreYield_Bar2     : Z;
  OreYield_Bar1     : Z;
  OreVariant_Random : Z;
  Location_add      : Location -> Location -> Location;  (* operator+ *)
  MapRect_Width     : MapRect -> Z;                      (* Width()   *)
  MapRect_Height    : MapRect -> Z                       (* Height()  *)
}.

(** A host used to evaluate programs on concrete inputs: its state counts
    the accesses, every access returns 1, and a call stores the id 7
    through its reference argument. *)
Definition counting_host : Model :=
  mkModel nat (fun a n =>
    (mkReply 1 (match a with OP2Thunk _ (VRef _ :: _) => Some 7 | _ => None end),
     S n)).

(** Sample values for the header constants, used on concrete inputs. *)
Definition sample_headers : Headers :=
  {| Unit_null := 0;
     MapID_Any := -1; MapID_CargoTruck := 1;
     MapID_MagmaVent := 125; MapID_Fumarole := 126; MapID_MiningBeacon := 124;
     OreType_Random := -1; OreType_Common := 0; OreType_Rare := 1;
     OreYield_Random := -1; OreYield_Bar3 := 0; OreYield_Bar2 := 1;
     OreYield_Bar1 := 2; OreVariant_Random := -1;
     Location_add := fun a b => mkLocation (x a + x b) (y a + y b);
     MapRect_Width := fun r => x2 r - x1 r + 1;
     MapRect_Height := fun r => y2 r - y1 r + 1 |}.

End Host.

Import Host.
Local Open Scope string_scope.
Local Open Scope list_scope.
Local Open Scope Z_scope.

(** [OP2Thunk<addr, R FASTCALL(...)>(args...)] used for its returned value. *)
Definition thunk (addr : Z) (args : list Val) : Prog Z :=
  r ← call (OP2Thunk addr args); mret (ret r).

(** A member or data member of a host class declared outside the modelled
    files, used for its value. *)
Definition extern (name : string) (args : list Val) : Prog Z :=
  r ← call (Extern name args); mret (ret r).

(** The whole behaviour of [p] against [H] from [s] is the one access [a]. *)
Definition only_access {R} (H : Model) (s : state H) (p : Prog R) (a : Access)
  : Prop :=
  List.map access (trace (run H p s)) = [a].

(** [Unit] of API/Unit.h: a stub holding the index of a map object. *)
Record Unit : Set := mkUnit { id_ : Z }.

(* ===================================================================== *)
(** * Game/TubeConnection.h *)
(* ===================================================================== *)

Module TubeConnectionManager.

(** [int CalculateAverageDIRTDamageProtection(int playerNum)
      { return Thunk<0x42FF90, &$::CalculateAverageDIRTDamageProtection>(playerNum); }] *)
Definition CalculateAverageDIRTDamageProtection (this playerNum : Z) : Prog Z :=
  r ← call (Thunk 0x42FF90 this [VInt playerNum]); mret (ret r).

End TubeConnectionManager.

Module TubeConnection.

(** [int CalculateDIRTDamagePrevention()
      { return Thunk<0x430050, &$::CalculateDIRTDamagePrevention>(); }] *)
Definition CalculateDIRTDamagePrevention (this : Z) : Prog Z :=
  r ← call (Thunk 0x430050 this []); mret (ret r).

End TubeConnection.

(* ===================================================================== *)
(** * API/GameMap.h *)
(* ===================================================================== *)

Module GameMap.
Section WithHeaders.
Variable hdr : Headers.

Local Notation "a +L b" := (Location_add hdr a b) (at level 50, left associativity).

(** [static MapImpl* GetImpl() { return MapImpl::GetInstance(); }] *)
Definition GetImpl : Prog Z := extern "MapImpl::GetInstance" [].

(** [GetImpl()->pTerrainManager_] *)
Definition pTerrainManager_ : Prog Z :=
  impl ← GetImpl; extern "MapImpl::pTerrainManager_" [VInt impl].

(** [static int GetTile(Location where)
      { return OP2Thunk<0x476D00, int FASTCALL(Location)>(where); }] *)
Definition GetTile (where_ : Location) : Prog Z :=
  thunk 0x476D00 [VLoc where_].

(** [static void FASTCALL SetTile(Location where, int tileIndex)
      { return OP2Thunk<0x476D80, &$::SetTile>(where, tileIndex); }] *)
Definition SetTile (where_ : Location) (tileIndex : Z) : Prog unit :=
  _ ← call (OP2Thunk 0x476D80 [VLoc where_; VInt tileIndex]); mret tt.

(** [static bool Load(std::string_view filename)
      { GetImpl()->Deinit();  return GetImpl()->LoadFromFile(filename.data()); }] *)
Definition Load (filename : string) : Prog bool :=
  impl ← GetImpl;
  _ ← extern "MapImpl::Deinit" [VInt impl];
  impl ← GetImpl;
  r ← extern "MapImpl::LoadFromFile" [VInt impl; VStr filename];
  mret (truthy r).

(** The four tile-index lookups of TerrainManager.  In
    [SetTile(where, GetImpl()->pTerrainManager_->Get..TileIndex(GetTile(where)))]
    the object expression is evaluated before the argument. *)
Definition SetBulldozed (where_ : Location) : Prog unit :=
  tm ← pTerrainManager_;
  t ← GetTile where_;
  i ← extern "TerrainManager::GetBulldozedTileIndex" [VInt tm; VInt t];
  SetTile where_ i.

Definition CreateScorchMark (where_ : Location) : Prog unit :=
  tm ← pTerrainManager_;
  t ← GetTile where_;
  i ← extern "TerrainManager::GetScorchMarkTileIndex" [VInt tm; VInt t];
  SetTile where_ i.

Definition CreateCommonRubble (where_ : Location) : Prog unit :=
  tm ← pTerrainManager_;
  t ← GetTile where_;
  i ← extern "TerrainManager::GetCommonRubbleTileIndex" [VInt tm; VInt t];
  SetTile where_ i.

Definition CreateRareRubble (where_ : Location) : Prog unit :=
  tm ← pTerrainManager_;
  t ← GetTile where_;
  i ← extern "TerrainManager::GetRareRubbleTileIndex" [VInt tm; VInt t];
  SetTile where_ i.

(** [SetLavaFlowHelper(where, topLeft, topRight, bottomLeft, bottomRight)] *)
Definition SetLavaFlowHelper (where_ : Location)
    (topLeft topRight bottomLeft bottomRight : Z) : Prog unit :=
  _ ← SetTile where_ topLeft;
  _ ← SetTile (where_ +L mkLocation 0 1) topRight;
  _ ← SetTile (where_ +L mkLocation 1 0) bottomLeft;
  SetTile (where_ +L mkLocation 1 1) bottomRight.

Definition CreateLavaFlowSW (where_ : Location) : Prog unit :=
  SetLavaFlowHelper where_ 0x447 0x45E 0x453 0x469.
Definition CreateLavaFlowS (where_ : Location) : Prog unit :=
  _ ← SetTile where_ 0x474; SetTile (where_ +L mkLocation 0 1) 0x47E.
Definition CreateLavaFlowSE (where_ : Location) : Prog unit :=
  SetLavaFlowHelper where_ 0x489 0x4A0 0x494 0x4AB.
Definition FreezeLavaFlowSW (where_ : Location) : Prog unit :=
  SetLavaFlowHelper where_ 0x44F 0x465 0x45A 0x470.
Definition FreezeLavaFlowS (where_ : Location) : Prog unit :=
  _ ← SetTile where_ 0x47B; SetTile (where_ +L mkLocation 0 1) 0x486.
Definition FreezeLavaFlowSE (where_ : Location) : Prog unit :=
  SetLavaFlowHelper where_ 0x490 0x4A8 0x49C 0x4B2.

(** The composition the convenience operations are described by:
    [SetTile(where, f(GetTile(where)))], [f] a lookup of the terrain
    manager, named by its member function. *)
Definition spec_SetTile_of_lookup (f : string) (where_ : Location) : Prog unit :=
  tm ← pTerrainManager_;
  t ← GetTile where_;
  i ← extern f [VInt tm; VInt t];
  SetTile where_ i.

(** The fixed sequence of [SetTile] calls a lava-flow helper is described
    by: one call per listed (location, tile index) pair, in order. *)
Fixpoint spec_SetTiles (tiles : list (Location * Z)) : Prog unit :=
  match tiles with
  | [] => mret tt
  | (l, i) :: rest => _ ← SetTile l i; spec_SetTiles rest
  end.

End WithHeaders.

(** The host call a [SetTile] makes. *)
Definition SetTile_access (tile : Location * Z) : Access :=
  OP2Thunk 0x476D80 [VLoc (fst tile); VInt (snd tile)].

End GameMap.

(* ===================================================================== *)
(** * API/Game.h *)
(* ===================================================================== *)

Module Game.

(** [enum class MineType : int]; [RandomOre], [CommonOre] and [RareOre] take
    their values from [OreType]. *)
Definition MineType_MagmaVent : Z := -2.
Definition MineType_Fumarole  : Z := -3.

Section WithHeaders.
Variable hdr : Headers.

Definition MineType_RandomOre : Z := OreType_Random hdr.
Definition MineType_CommonOre : Z := OreType_Common hdr.
Definition MineType_RareOre   : Z := OreType_Rare hdr.

(** [Unit()] *)
Definition Unit_default : Unit := mkUnit (Unit_null hdr).

(** [*(_Player::GetInstance(6)->GetBeacons())] *)
Definition first_beacon : Prog Unit :=
  player ← extern "_Player::GetInstance" [VInt 6];
  pBeacons ← extern "_Player::GetBeacons" [VInt player];
  r ← call (Deref pBeacons);
  mret (mkUnit (ret r)).

(** [static int GetRand(int range) { return Random::GetInstance()->Rand(range); }] *)
Definition GetRand (range : Z) : Prog Z :=
  rng ← extern "Random::GetInstance" [];
  extern "Random::Rand" [VInt rng; VInt range].

(** [static Unit CreateUnit(MapID type, Location where, int ownerNum,
      MapID weaponCargo, UnitDirection rotation, bool lightsOn)
    { Unit u;
      OP2Thunk<0x478780, ibool FASTCALL(Unit&, MapID, Location, int, MapID, UnitDirection)>(
        u, type, where, ownerNum, weaponCargo, rotation);
      if (u.IsVehicle() && lightsOn) u.DoSetLights(true);
      return u; }] *)
Definition CreateUnit (type : Z) (where_ : Location) (ownerNum : Z)
    (weaponCargo rotation : Z) (lightsOn : bool) : Prog Unit :=
  let u := Unit_default in
  r ← call (OP2Thunk 0x478780
              [VRef (id_ u); VInt type; VLoc where_; VInt ownerNum;
               VInt weaponCargo; VInt rotation]);
  let u := match stored r with Some id => mkUnit id | None => u end in
  isVehicle ← extern "Unit::IsVehicle" [VRef (id_ u)];
  if truthy isVehicle && lightsOn
  then _ ← extern "Unit::DoSetLights" [VRef (id_ u); VInt (ibool_of true)];
       mret u
  else mret u.

(** [static Unit CreateWreckage(Location location, int techID, bool isDiscovered)
    { return ((techID >= 8000) && (techID <= 12095) &&
              OP2Thunk<0x4789F0, ibool FASTCALL(int, int, int, ibool)>(
                location.x, location.y, techID, isDiscovered))
             ? *(_Player::GetInstance(6)->GetBeacons()) : Unit(); }] *)
Definition CreateWreckage (location : Location) (techID : Z) (isDiscovered : bool)
  : Prog Unit :=
  cond ← (if (techID >=? 8000) && (techID <=? 12095)
          then r ← thunk 0x4789F0 [VInt (x location); VInt (y location);
                                    VInt techID; VInt (ibool_of isDiscovered)];
               mret (truthy r)
          else mret false);
  if cond : bool then first_beacon else mret Unit_default.

(** [Game::CreateMine(Location location, MineType type, OreYield yield,
                      OreVariant variant)] *)
Definition CreateMine (location : Location) (type yield variant : Z) : Prog Unit :=
  let mapID :=
    if type =? MineType_MagmaVent then MapID_MagmaVent hdr
    else if type =? MineType_Fumarole then MapID_Fumarole hdr
    else MapID_MiningBeacon hdr in
  yield ← (if (mapID =? MapID_MiningBeacon hdr)
              && (yield =? OreYield_Random hdr)
              && negb (variant =? OreVariant_Random hdr)
           then result ← GetRand 10;
                mret (if result <=? 1 then OreYield_Bar3 hdr
                      else if result <=? 7 then OreYield_Bar2 hdr
                      else OreYield_Bar1 hdr)
           else mret yield);
  mgr ← extern "MineManager::GetInstance" [];
  varNum ← extern "MineManager::GetVariantNum" [VInt mgr; VInt yield; VInt variant];
  r ← thunk 0x478940 [VInt mapID; VInt (x location); VInt (y location);
                       VInt (Z.max type MineType_RandomOre); VInt yield;
                       VInt varNum];
  if truthy r then first_beacon else mret Unit_default.

End WithHeaders.
End Game.

(* ===================================================================== *)
(** * API/Trigger.h *)
(* ===================================================================== *)

Module Trigger.
Section WithHeaders.
Variable hdr : Headers.

(** A [Trigger] is a stub holding an id; the factories return it by value.
    Arguments follow the C++ parameter order, defaults written out by the
    caller. *)
Definition B (b : bool) : Val := VInt (ibool_of b).

Definition CreateVictoryCondition (condition : Z) (text : string)
    (oneShot enabled : bool) : Prog Z :=
  thunk 0x479930 [B enabled; B oneShot; VRef condition; VStr text].

Definition CreateFailureCondition (condition : Z) (enabled : bool) : Prog Z :=
  thunk 0x479980 [B enabled; VInt 0; VRef condition; VStr ""].

Definition CreateSetTrigger (triggerFunction : string) (needed : Z)
    (oneShot enabled : bool) (triggers : list Z) : Prog Z :=
  thunk 0x4794E0 ([B enabled; B oneShot; VInt (Z.of_nat (List.length triggers));
                   VInt needed; VStr triggerFunction] ++ List.map VRef triggers).

Definition CreateLastOneStandingTrigger (triggerFunction : string)
    (oneShot enabled : bool) : Prog Z :=
  thunk 0x478F30 [B enabled; B oneShot; VStr triggerFunction].

Definition CreateSpaceRaceTrigger (triggerFunction : string) (playerNum : Z)
    (oneShot enabled : bool) : Prog Z :=
  thunk 0x479260 [B enabled; B oneShot; VInt playerNum; VStr triggerFunction].

Definition CreateMidasTrigger (time : Z) (triggerFunction : string)
    (oneShot enabled : bool) : Prog Z :=
  thunk 0x479300 [B enabled; B oneShot; VInt time; VStr triggerFunction].

Definition CreateResourceTrigger (resourceType compare refAmount : Z)
    (triggerFunction : string) (playerNum : Z) (oneShot enabled : bool) : Prog Z :=
  thunk 0x478DE0 [B enabled; B oneShot; VInt resourceType; VInt refAmount;
                  VInt playerNum; VInt compare; VStr triggerFunction].

Definition CreateResearchTrigger (techID : Z) (triggerFunction : string)
    (playerNum : Z) (oneShot enabled : bool) : Prog Z :=
  thunk 0x478E90 [B enabled; B oneShot; VInt techID; VInt playerNum;
                  VStr triggerFunction].

Definition CreateKitTrigger (structureKitType refCount : Z)
    (triggerFunction : string) (playerNum : Z) (oneShot enabled : bool) : Prog Z :=
  thunk 0x4791C0 [B enabled; B oneShot; VInt playerNum; VInt structureKitType;
                  VInt refCount; VStr triggerFunction].

Definition CreateCountTrigger (unitType cargoOrWeapon compare refCount : Z)
    (triggerFunction : string) (playerNum : Z) (oneShot enabled : bool) : Prog Z :=
  thunk 0x479110 [B enabled; B oneShot; VInt playerNum; VInt unitType;
                  VInt cargoOrWeapon; VInt refCount; VInt compare;
                  VStr triggerFunction].

(** The overload taking a [CargoType]. *)
Definition CreateCountTrigger_cargo (truckCargoType compare refCount : Z)
    (triggerFunction : string) (playerNum : Z) (oneShot enabled : bool) : Prog Z :=
  thunk 0x479110 [B enabled; B oneShot; VInt playerNum;
                  VInt (MapID_CargoTruck hdr); VInt truckCargoType;
                  VInt refCount; VInt compare; VStr triggerFunction].

Definition CreateOperationalTrigger (structureType compare refCount playerNum : Z)
    (triggerFunction : string) (oneShot enabled : bool) : Prog Z :=
  thunk 0x479880 [B enabled; B oneShot; VInt playerNum; VInt structureType;
                  VInt refCount; VInt compare; VStr triggerFunction].

Definition CreateVehicleCountTrigger (compare refCount : Z)
    (triggerFunction : string) (playerNum : Z) (oneShot enabled : bool) : Prog Z :=
  thunk 0x479440 [B enabled; B oneShot; VInt playerNum; VInt refCount;
                  VInt compare; VStr triggerFunction].

Definition CreateBuildingCountTrigger (compare refCount : Z)
    (triggerFunction : string) (playerNum : Z) (oneShot enabled : bool) : Prog Z :=
  thunk 0x4793A0 [B enabled; B oneShot; VInt playerNum; VInt refCount;
                  VInt compare; VStr triggerFunction].

Definition CreateTimeTrigger (time : Z) (triggerFunction : string)
    (oneShot enabled : bool) : Prog Z :=
  thunk 0x478D00 [B enabled; B oneShot; VInt time; VStr triggerFunction].

(** The overload taking an interval. *)
Definition CreateTimeTrigger_range (timeMin timeMax : Z) (triggerFunction : string)
    (oneShot enabled : bool) : Prog Z :=
  thunk 0x478DA0 [B enabled; B oneShot; VInt timeMin; VInt timeMax;
                  VStr triggerFunction].

Definition CreateSpecialTarget (targetUnit : Unit) (sourceUnitType : Z)
    (triggerFunction : string) (oneShot enabled : bool) : Prog Z :=
  thunk 0x4797A0 [B enabled; B oneShot; VRef (id_ targetUnit);
                  VInt sourceUnitType; VStr triggerFunction].

Definition CreateAttackedTrigger (group : Z) (triggerFunction : string)
    (oneShot enabled : bool) : Prog Z :=
  thunk 0x4795A0 [B enabled; B oneShot; VRef group; VStr triggerFunction].

Definition CreateDamagedTrigger (group damage : Z) (triggerFunction : string)
    (oneShot enabled : bool) : Prog Z :=
  thunk 0x479640 [B enabled; B oneShot; VRef group; VInt damage;
                  VStr triggerFunction].

Definition CreatePointTrigger (where_ : Location) (triggerFunction : string)
    (playerNum : Z) (oneShot enabled : bool) : Prog Z :=
  thunk 0x479070 [B enabled; B oneShot; VInt playerNum; VInt (x where_);
                  VInt (y where_); VStr triggerFunction].

(** [enabled, oneShot, playerNum, area.x1, area.x2, area.Width(),
     area.Height(), triggerFunction.data()] *)
Definition CreateRectTrigger (area : MapRect) (triggerFunction : string)
    (playerNum : Z) (oneShot enabled : bool) : Prog Z :=
  thunk 0x478FC0 [B enabled; B oneShot; VInt playerNum; VInt (x1 area);
                  VInt (x2 area); VInt (MapRect_Width hdr area);
                  VInt (MapRect_Height hdr area); VStr triggerFunction].

(** [enabled, oneShot, playerNum, area.x1, area.y1, area.Width(),
     area.Height(), refCount, unitType, cargoType, cargoAmount,
     triggerFunction.data()] *)
Definition CreateEscapeTrigger (area : MapRect)
    (unitType refCount cargoType cargoAmount : Z) (triggerFunction : string)
    (playerNum : Z) (oneShot enabled : bool) : Prog Z :=
  thunk 0x4796E0 [B enabled; B oneShot; VInt playerNum; VInt (x1 area);
                  VInt (y1 area); VInt (MapRect_Width hdr area);
                  VInt (MapRect_Height hdr area); VInt refCount; VInt unitType;
                  VInt cargoType; VInt cargoAmount; VStr triggerFunction].

End WithHeaders.
End Trigger.

(* ===================================================================== *)
(** * API/Enumerators.h *)
(* ===================================================================== *)

Module Enumerators.

(** The fields of a host [MapObject] the iterators read; a pointer is an
    address, [nullptr] is 0. *)
Record MapObject : Set := mkMapObject {
  pPlayerNext_ : Z;   (* next object in the owner's list *)
  typeID       : Z    (* GetTypeID()                     *)
}.

(** The list heads of a host [PlayerImpl]. *)
Record PlayerImpl : Set := mkPlayerImpl {
  pVehicleList_  : Z;
  pBuildingList_ : Z;
  pEntityList_   : Z
}.

(** Host memory as the iterators see it: the objects by address, and what
    [GameImpl::GetInstance()->GetPlayer(i)] points at. *)
Record Memory : Type := mkMemory {
  objects   : gmap Z MapObject;
  GetPlayer : Z -> PlayerImpl
}.

Definition nullptr : Z := 0.

(** A [FilterPlayerUnitIterator] made by an enumerator: [pUnitCache_] always
    points at the enumerator's [unitCache_] and [freeCache_] is false, so the
    iterator is its [pMo_] and [type_]. *)
Record Iterator : Set := mkIterator { pMo_ : Z; type_ : Z }.

(** The state the iteration runs in: host memory and the enumerator's
    [unitCache_], shared by all its iterators. *)
Record World : Type := mkWorld { mem : Memory; unitCache_ : list Unit }.

(** The three enumerators differ in the list head [begin()] reads. *)
Inductive Enum : Set := PlayerVehicleEnum | PlayerBuildingEnum | PlayerEntityEnum.

Section WithHeaders.
Variable hdr : Headers.
(** The constructor of [Unit] from a [MapObject] pointer, of API/Unit.h. *)
Variable Unit_of_MapObject : Memory -> Z -> Unit.

(** [PlayerUnitIterator::operator++]:
    [pMo_ = (pMo_ != nullptr) ? pMo_->pPlayerNext_ : nullptr].
    Reading through a pointer that is not mapped has no result. *)
Definition PlayerUnitIterator_incr (m : Memory) (pMo : Z) : option Z :=
  if negb (pMo =? nullptr)
  then o ← objects m !! pMo; Some (pPlayerNext_ o)
  else Some nullptr.

(** [do PlayerUnitIterator::operator++();
     while (pMo_ && (pMo_->GetTypeID() != type_));] *)
Fixpoint do_while (fuel : nat) (m : Memory) (type pMo : Z) : option Z :=
  match fuel with
  | O => None
  | S fuel' =>
      pMo ← PlayerUnitIterator_incr m pMo;
      if negb (pMo =? nullptr)
      then o ← objects m !! pMo;
           if negb (typeID o =? type) then do_while fuel' m type pMo
           else Some pMo
      else Some pMo
  end.

(** [FilterPlayerUnitIterator::operator++] *)
Definition incr (fuel : nat) (m : Memory) (it : Iterator) : option Iterator :=
  if type_ it =? MapID_Any hdr
  then pMo ← PlayerUnitIterator_incr m (pMo_ it); Some (mkIterator pMo (type_ it))
  else pMo ← do_while fuel m (type_ it) (pMo_ it); Some (mkIterator pMo (type_ it)).

(** [FilterPlayerUnitIterator(PlayerUnitIterator src, MapID type)]:
    [if (pMo_ && (type_ != MapID::Any) && (pMo_->GetTypeID() != type_)) ++( *this );] *)
Definition FilterPlayerUnitIterator (fuel : nat) (m : Memory) (pMo type : Z)
  : option Iterator :=
  let this := mkIterator pMo type in
  if negb (pMo =? nullptr) && negb (type =? MapID_Any hdr)
  then o ← objects m !! pMo;
       if negb (typeID o =? type) then incr fuel m this else Some this
  else Some this.

(** [operator!=]: [!(pMo_ == other.pMo_)] *)
Definition neq (a b : Iterator) : bool := negb (pMo_ a =? pMo_ b).

(** [operator*]: [auto& u = pUnitCache_->emplace_back(pMo_); return u;]
    The unit is appended to the shared cache and the reference to that new
    last element is what the loop body sees. *)
Definition deref (w : World) (it : Iterator) : Unit * World :=
  let u := Unit_of_MapObject (mem w) (pMo_ it) in
  (u, mkWorld (mem w) (unitCache_ w ++ [u])).

Definition list_head (e : Enum) (p : PlayerImpl) : Z :=
  match e with
  | PlayerVehicleEnum  => pVehicleList_ p
  | PlayerBuildingEnum => pBuildingList_ p
  | PlayerEntityEnum   => pEntityList_ p
  end.

(** [begin()] of the three enumerators and [end()] of their base. *)
Definition begin_ (fuel : nat) (e : Enum) (playerNum type : Z) (w : World)
  : option Iterator :=
  FilterPlayerUnitIterator fuel (mem w)
    (list_head e (GetPlayer (mem w) playerNum)) type.

Definition end_ (fuel : nat) (type : Z) (w : World) : option Iterator :=
  FilterPlayerUnitIterator fuel (mem w) nullptr type.

(** [for (; it != end; ++it) yield *it;] *)
Fixpoint for_loop (fuel inner : nat) (w : World) (it last : Iterator)
  : option (list Unit * World) :=
  match fuel with
  | O => None
  | S fuel' =>
      if neq it last
      then let '(u, w) := deref w it in
           it ← incr inner (mem w) it;
           '(us, w) ← for_loop fuel' inner w it last;
           Some (u :: us, w)
      else Some ([], w)
  end.

(** [for (Unit& u : Enum(playerNum, type)) yield u;]: the units seen by the
    loop body, in order, and the state left. *)
Definition enumerate (fuel : nat) (e : Enum) (playerNum type : Z) (w : World)
  : option (list Unit * World) :=
  first ← begin_ fuel e playerNum type w;
  last ← end_ fuel type w;
  for_loop fuel fuel w first last.

(** [l] lists the objects met from [p] along [pPlayerNext_] up to the
    null pointer. *)
Inductive chain (m : Memory) : Z -> list (Z * MapObject) -> Prop :=
| chain_nil : chain m nullptr []
| chain_cons p o l :
    p <> nullptr -> objects m !! p = Some o ->
    chain m (pPlayerNext_ o) l -> chain m p ((p, o) :: l).

(** The address a chain starts at. *)
Definition first_ptr (l : list (Z * MapObject)) : Z :=
  match l with
  | [] => nullptr
  | po :: _ => fst po
  end.

(** The part of a chain from its first object of type [type] on. *)
Fixpoint seek (type : Z) (l : list (Z * MapObject)) : list (Z * MapObject) :=
  match l with
  | [] => []
  | po :: rest => if negb (typeID (snd po) =? type) then seek type rest else l
  end.

(** Where an iterator of filter [type] stands when placed on a chain. *)
Definition settle (type : Z) (l : list (Z * MapObject)) : list (Z * MapObject) :=
  if type =? MapID_Any hdr then l else seek type l.

(** An object passes the filter. *)
Definition passes (type : Z) (po : Z * MapObject) : bool :=
  (type =? MapID_Any hdr) || (typeID (snd po) =? type).

(** The units the claim describes: those of the chain that pass the
    filter, in list order. *)
Definition spec_units (m : Memory) (type : Z) (l : list (Z * MapObject))
  : list Unit :=
  List.map (fun po => Unit_of_MapObject m (fst po)) (List.filter (passes type) l).

End WithHeaders.

(** A memory with three vehicles of player 0: types 5, 9, 5. *)
Definition sample_memory : Memory :=
  mkMemory
    (<[100 := mkMapObject 200 5]>
       (<[200 := mkMapObject 300 9]>
          (<[300 := mkMapObject 0 5]> ∅)))
    (fun _ => mkPlayerImpl 100 0 0).

Definition sample_chain : list (Z * MapObject) :=
  [(100, mkMapObject 200 5); (200, mkMapObject 300 9); (300, mkMapObject 0 5)].

(** A memory where every player has two vehicles (types 5 and 9), one
    building (type 21) and one entity (type 5), on three separate lists. *)
Definition sample_lists : Memory :=
  mkMemory
    (<[100 := mkMapObject 200 5]>
       (<[200 := mkMapObject 0 9]>
          (<[400 := mkMapObject 0 21]>
             (<[600 := mkMapObject 0 5]> ∅))))
    (fun _ => mkPlayerImpl 100 400 600).

End Enumerators.

(* ===================================================================== *)
(** * Common/Util.h: the flag tests *)
(* ===================================================================== *)

Module Flags.

(** [template <typename M, typename F> bool BitFlagTest(M mask, F flag)
      { return (mask & flag) != 0; }] *)
Definition BitFlagTest (mask flag : Z) : bool := negb (Z.land mask flag =? 0).

(** [template <typename M, typename F> bool BitFlagsTest(M mask, F flags)
      { return (mask & flags) == flags; }] *)
Definition BitFlagsTest (mask flags : Z) : bool := Z.land mask flags =? flags.

(** The step the comment on [GetNextBit] asks of its caller, "found bit must
    be masked out after each call in a loop": [mask &= ~(1u << index)]. *)
Definition mask_out (mask index : Z) : Z :=
  Z.land mask (Util.wrap 32 (Z.lnot (Util.wrap 32 (Z.shiftl 1 index)))).

End Flags.

(** Conversion of a mathematical integer to a two's complement [int]. *)
Definition int32 (z : Z) : Z := (z + 2 ^ 31) mod 2 ^ 32 - 2 ^ 31.

(** The integers from [a] to [b], both included; empty when [b < a]. *)
Definition zrange (a b : Z) : list Z :=
  List.map (fun i => a + Z.of_nat i) (List.seq 0 (Z.to_nat (b + 1 - a))).

(** The first argument of a call. *)
Definition first_arg (a : Access) : option Val :=
  match a with
  | OP2Thunk _ (v :: _) | Thunk _ _ (v :: _) | Extern _ (v :: _) => Some v
  | _ => None
  end.

(* ===================================================================== *)
(** * API/Game.h: messages, sounds, walls, Blight and disasters *)
(* ===================================================================== *)

Module GameOps.
Section WithHeaders.
Variable hdr : Headers.
(** [AllPlayers] and [MapID::Tube], and the constructor of [Unit] from a
    map object pointer, come from headers outside the modelled files. *)
Variable AllPlayers : Z.
Variable MapID_Tube : Z.
Variable Unit_of_pointer : Z -> Unit.

(** [static GameImpl* GetImpl() { return GameImpl::GetInstance(); }] *)
Definition GetImpl : Prog Z := extern "GameImpl::GetInstance" [].

(** [static int LocalPlayer() { return GetImpl()->localPlayer_; }] *)
Definition LocalPlayer : Prog Z :=
  impl ← GetImpl; extern "GameImpl::localPlayer_" [VInt impl].

(** The player mask of [AddGameSound]:
    [(toPlayerNum == -1) ? -1 : (1u << toPlayerNum)], an [unsigned]. *)
Definition sound_mask (toPlayerNum : Z) : Z :=
  if toPlayerNum =? -1 then Util.wrap 32 (-1)
  else Util.wrap 32 (Z.shiftl 1 toPlayerNum).

(** [static void AddGameSound(SoundID soundID, int toPlayerNum)
      { SoundManager::GetInstance()->AddGameSound(
          soundID, (toPlayerNum == -1) ? -1 : (1u << toPlayerNum)); }] *)
Definition AddGameSound (soundID toPlayerNum : Z) : Prog unit :=
  mgr ← extern "SoundManager::GetInstance" [];
  _ ← extern "SoundManager::AddGameSound"
        [VInt mgr; VInt soundID; VInt (sound_mask toPlayerNum)];
  mret tt.

(** [static void AddMessage(std::string_view msg, SoundID soundID,
                            int toPlayerNum, int pixelX, int pixelY) {
      if ((toPlayerNum == AllPlayers) || (toPlayerNum == LocalPlayer()))
        MessageLog::GetInstance()->AddMessage(pixelX, pixelY, msg.data(), soundID); }] *)
Definition AddMessage (msg : string) (soundID toPlayerNum pixelX pixelY : Z)
  : Prog unit :=
  cond ← (if toPlayerNum =? AllPlayers then mret true
          else localPlayer ← LocalPlayer; mret (toPlayerNum =? localPlayer));
  if cond : bool
  then log ← extern "MessageLog::GetInstance" [];
       _ ← extern "MessageLog::AddMessage"
             [VInt log; VInt pixelX; VInt pixelY; VStr msg; VInt soundID];
       mret tt
  else mret tt.

(** [static void CreateWall(MapID type, Location location)
      { OP2Thunk<0x478AA0, ibool FASTCALL(int, int, int, MapID)>(
          location.x, location.y, 0, type); }] *)
Definition CreateWall (type : Z) (location : Location) : Prog unit :=
  _ ← thunk 0x478AA0 [VInt (x location); VInt (y location); VInt 0; VInt type];
  mret tt.

(** [for (int x = area.x1; x <= area.x2; CreateWall(type, Location(x++, y)));]
    [None] when the fuel runs out. *)
Fixpoint CreateWall_row (fuel : nat) (type y_ x_ x2_ : Z) : Prog (option unit) :=
  match fuel with
  | O => mret None
  | S fuel' =>
      if x_ <=? x2_
      then _ ← CreateWall type (mkLocation x_ y_);
           CreateWall_row fuel' type y_ (int32 (x_ + 1)) x2_
      else mret (Some tt)
  end.

(** [for (int y = area.y1; y <= area.y2; ++y) <the row loop>] *)
Fixpoint CreateWall_rows (fuel inner : nat) (type : Z) (area : MapRect) (y_ : Z)
  : Prog (option unit) :=
  match fuel with
  | O => mret None
  | S fuel' =>
      if y_ <=? y2 area
      then row ← CreateWall_row inner type y_ (x1 area) (x2 area);
           match row with
           | Some _ => CreateWall_rows fuel' inner type area (int32 (y_ + 1))
           | None => mret None
           end
      else mret (Some tt)
  end.

(** [static void CreateWall(MapID type, const MapRect& area)] *)
Definition CreateWall_area (fuel : nat) (type : Z) (area : MapRect)
  : Prog (option unit) :=
  CreateWall_rows fuel fuel type area (y1 area).

(** [static void CreateTube(const MapRect& area) { CreateWall(MapID::Tube, area); }] *)
Definition CreateTube_area (fuel : nat) (area : MapRect) : Prog (option unit) :=
  CreateWall_area fuel MapID_Tube area.

(** [static void SetBlightSpeed(int spreadSpeed)
      { BlightManager::GetInstance()->SetSpreadSpeed(spreadSpeed); }] *)
Definition SetBlightSpeed (spreadSpeed : Z) : Prog unit :=
  mgr ← extern "BlightManager::GetInstance" [];
  _ ← extern "BlightManager::SetSpreadSpeed" [VInt mgr; VInt spreadSpeed];
  mret tt.

(** [static void CreateBlight(Location where, int spreadSpeed)
      { if (spreadSpeed >= 0) SetBlightSpeed(spreadSpeed);
        OP2Thunk<0x476EA0, void FASTCALL(Location, ibool)>(where, 1); }] *)
Definition CreateBlight (where_ : Location) (spreadSpeed : Z) : Prog unit :=
  _ ← (if spreadSpeed >=? 0 then SetBlightSpeed spreadSpeed else mret tt);
  _ ← call (OP2Thunk 0x476EA0 [VLoc where_; VInt 1]);
  mret tt.

(** [static void UnsetBlight(Location where)
      { return OP2Thunk<0x476EA0, void FASTCALL(Location, ibool)>(where, 0); }] *)
Definition UnsetBlight (where_ : Location) : Prog unit :=
  _ ← call (OP2Thunk 0x476EA0 [VLoc where_; VInt 0]);
  mret tt.

(** [template <uintptr Address, typename Fn, typename... Args>
     static Unit DisasterThunk(bool immediate, Args... args) {
       auto*const pUnit = OP2Thunk<Address, Fn>(args...);
       if ((pUnit != nullptr) && immediate) pUnit->StartDisaster();
       return Unit(pUnit); }] *)
Definition DisasterThunk (Address : Z) (immediate : bool) (args : list Val)
  : Prog Unit :=
  pUnit ← thunk Address args;
  _ ← (if negb (pUnit =? 0) && immediate
       then extern "Disaster::StartDisaster" [VInt pUnit]
       else mret 0);
  mret (Unit_of_pointer pUnit).

Definition CreateEMPMissile (target launchArea : Location) (ownerNum : Z) : Prog Unit :=
  DisasterThunk 0x478420 false
    [VInt (x launchArea); VInt (y launchArea); VInt ownerNum;
     VInt (x target); VInt (y target)].

Definition CreateMeteor (where_ : Location) (size : Z) (immediate : bool) : Prog Unit :=
  DisasterThunk 0x4783B0 immediate [VInt (x where_); VInt (y where_); VInt size].

Definition CreateEarthquake (where_ : Location) (magnitude : Z) (immediate : bool)
  : Prog Unit :=
  DisasterThunk 0x478320 immediate [VInt (x where_); VInt (y where_); VInt magnitude].

Definition CreateEruption (where_ : Location) (spreadSpeed : Z) (immediate : bool)
  : Prog Unit :=
  DisasterThunk 0x4782E0 immediate [VInt (x where_); VInt (y where_); VInt spreadSpeed].

Definition CreateLightning (start end_ : Location) (duration : Z) (immediate : bool)
  : Prog Unit :=
  DisasterThunk 0x4783E0 immediate
    [VInt (x start); VInt (y start); VInt duration; VInt (x end_); VInt (y end_)].

Definition CreateTornado (start end_ : Location) (duration : Z) (immediate : bool)
  : Prog Unit :=
  DisasterThunk 0x478350 false
    [VInt (x start); VInt (y start); VInt duration; VInt (x end_); VInt (y end_);
     VInt (ibool_of immediate)].

End WithHeaders.

(** The call [CreateWall] makes for the tile [(x, y)]. *)
Definition wall_access (type y_ x_ : Z) : Access :=
  OP2Thunk 0x478AA0 [VInt x_; VInt y_; VInt 0; VInt type].

(** The calls the block form is expected to make: one per tile, row by row. *)
Definition spec_wall_accesses (type : Z) (area : MapRect) : list Access :=
  List.flat_map (fun y_ => List.map (wall_access type y_) (zrange (x1 area) (x2 area)))
                (zrange (y1 area) (y2 area)).

End GameOps.

(* ===================================================================== *)
(** * API/Game.h: SetForceRCCPathFinding, on the fields it writes *)
(* ===================================================================== *)

Module GameFlags.

Inductive ToggleState : Set := Default | On | Off.

Definition ToggleState_eqb (a b : ToggleState) : bool :=
  match a, b with
  | Default, Default | On, On | Off, Off => true
  | _, _ => false
  end.

(** The fields of the host [GameImpl] the function writes;
    [rccOperational_] lists [GetPlayer(i)->rccOperational_] by player index. *)
Record GameImpl : Set := mkGameImpl {
  forceEnableRCC_  : bool;
  forceDisableRCC_ : bool;
  rccOperational_  : list bool
}.

Section WithHeaders.
(** [MaxPlayers], from a header outside the modelled files. *)
Variable MaxPlayers : nat.

(** [for (int i = 0; i < MaxPlayers;
          GetImpl()->GetPlayer(i++)->rccOperational_ = (state == ToggleState::On));]
    A write past the end of the player array is undefined in the source; here
    it changes nothing. *)
Fixpoint set_players (fuel i : nat) (v : bool) (players : list bool)
  : option (list bool) :=
  match fuel with
  | O => None
  | S fuel' =>
      if (i <? MaxPlayers)%nat
      then set_players fuel' (S i) v (<[i := v]> players)
      else Some players
  end.

(** [static void SetForceRCCPathFinding(ToggleState state)] *)
Definition SetForceRCCPathFinding (fuel : nat) (state : ToggleState) (g : GameImpl)
  : option GameImpl :=
  let g := mkGameImpl (ToggleState_eqb state On) (forceDisableRCC_ g)
                      (rccOperational_ g) in
  let g := mkGameImpl (forceEnableRCC_ g) (ToggleState_eqb state Off)
                      (rccOperational_ g) in
  if negb (ToggleState_eqb state Default)
  then players ← set_players fuel 0 (ToggleState_eqb state On) (rccOperational_ g);
       Some (mkGameImpl (forceEnableRCC_ g) (forceDisableRCC_ g) players)
  else Some g.

End WithHeaders.
End GameFlags.

(* ===================================================================== *)
(** * API/GameMap.h: dimensions and coordinates *)
(* ===================================================================== *)

Module MapCoords.

(** The fields of the host [MapImpl] the getters read. *)
Record MapImpl : Set := mkMapImpl {
  paddingOffsetTileX_ : Z;
  tileWidth_          : Z;
  tileHeight_         : Z;
  tileXMask_          : Z
}.

Definition GetPaddingWidth (impl : MapImpl) : Z := paddingOffsetTileX_ impl.
Definition GetPaddedWidth (impl : MapImpl) : Z := tileWidth_ impl.

(** [static int GetWidth()
      { return GetPaddedWidth() / ((GetPaddingWidth() != 0) ? 2 : 1); }] *)
Definition GetWidth (impl : MapImpl) : Z :=
  Z.quot (GetPaddedWidth impl) (if negb (GetPaddingWidth impl =? 0) then 2 else 1).

Definition GetHeight (impl : MapImpl) : Z := tileHeight_ impl.

(** [static Location At(int x, int y)
      { return Location(((x - 1 + GetPaddingWidth()) & GetImpl()->tileXMask_),
                        ((y - 1) & (GetHeight() - 1))); }] *)
Definition At (impl : MapImpl) (x_ y_ : Z) : Location :=
  mkLocation
    (Z.land (int32 (int32 (x_ - 1) + GetPaddingWidth impl)) (tileXMask_ impl))
    (Z.land (int32 (y_ - 1)) (int32 (GetHeight impl - 1))).

End MapCoords.

(* ===================================================================== *)
(** * API/Enumerators.h: the area enumerators *)
(* ===================================================================== *)

Module AreaEnumerators.

(** [InRangeEnumerator] and [LocationEnumerator]: the address of the host
    constructor their iterator calls, its arguments, and the address of
    [GetNext]. *)
Inductive Enum : Set :=
| InRangeEnumerator (centerPoint : Location) (maxTileDistance : Z)
| LocationEnumerator (location : Location).

Definition ctor_addr (e : Enum) : Z :=
  match e with
  | InRangeEnumerator _ _ => 0x47A740
  | LocationEnumerator _ => 0x47A6D0
  end.

Definition ctor_args (e : Enum) : list Val :=
  match e with
  | InRangeEnumerator centerPoint maxTileDistance =>
      [VLoc centerPoint; VInt maxTileDistance]
  | LocationEnumerator location => [VLoc location]
  end.

Definition GetNext_addr (e : Enum) : Z :=
  match e with
  | InRangeEnumerator _ _ => 0x47A780
  | LocationEnumerator _ => 0x47A710
  end.

Section WithHeaders.
Variable hdr : Headers.

(** [ibool GetNext(Unit& currentUnit) { return Thunk<.., &$::GetNext>(currentUnit); }]
    returns the flag and what is left in [currentUnit]. *)
Definition GetNext (e : Enum) (this : Z) (currentUnit : Unit) : Prog (Z * Unit) :=
  r ← call (Thunk (GetNext_addr e) this [VRef (id_ currentUnit)]);
  mret (ret r, match stored r with Some id => mkUnit id | None => currentUnit end).

(** [AreaIteratorBase::operator++]:
    [result_ = { }; e.GetNext(result_); return e;]
    The flag [GetNext] returns is dropped. *)
Definition incr (e : Enum) (this : Z) : Prog Unit :=
  let result_ := Game.Unit_default hdr in
  next ← GetNext e this result_;
  mret (snd next).

(** [Iterator(args) { InternalCtor<addr, ..>(args); ++( *this ); }] *)
Definition begin_ (e : Enum) (this : Z) : Prog Unit :=
  _ ← call (Thunk (ctor_addr e) this (ctor_args e));
  incr e this.

(** [operator!=] against [end()], whose [result_] is [{ }]. *)
Definition neq_end (result_ : Unit) : bool :=
  negb (id_ result_ =? id_ (Game.Unit_default hdr)).

(** [for (; it != end; ++it) yield *it;] with [None] when the fuel runs out. *)
Fixpoint for_loop (fuel : nat) (e : Enum) (this : Z) (result_ : Unit)
  : Prog (option (list Unit)) :=
  match fuel with
  | O => mret None
  | S fuel' =>
      if neq_end result_
      then next ← incr e this;
           rest ← for_loop fuel' e this next;
           mret (match rest with
                 | Some units => Some (result_ :: units)
                 | None => None
                 end)
      else mret (Some [])
  end.

(** [for (Unit u : e) yield u;] *)
Definition enumerate (fuel : nat) (e : Enum) (this : Z) : Prog (option (list Unit)) :=
  first ← begin_ e this;
  for_loop fuel e this first.

End WithHeaders.
End AreaEnumerators.

(* ===================================================================== *)
(** * Resource/OP2Ext.h: the string and list helpers *)
(* ===================================================================== *)

Module OP2Ext.
Section WithLibrary.
(** The state of op2ext.dll and two of its exports: a count, and a getter
    [FnGet(index, buffer, bufferSize)] giving the [size_t] it returns and the
    C string the buffer holds afterwards. *)
Variable St : Type.
Variable FnCount : St -> Z * St.
Variable FnGet : Z -> Z -> St -> (Z * string) * St.

(** [template <auto* FnGet, size_t BufferSize = 1024, typename... Args>
     std::string GetStringHelper(Args... args) {
       char buf[BufferSize] = "";
       if (size_t allocSize = FnGet(args..., &buf[0], sizeof(buf));  allocSize > sizeof(buf)) {
         std::unique_ptr<char[]> pBuf(new char[allocSize]);
         return (FnGet(args..., pBuf.get(), allocSize) == 0) ? pBuf.get() : "";
       }
       else return std::string(buf); }] *)
Definition GetStringHelper (BufferSize : Z) (index : Z) (s : St) : string * St :=
  let '((allocSize, buf), s) := FnGet index BufferSize s in
  if allocSize >? BufferSize
  then let '((r, pBuf), s) := FnGet index allocSize s in
       (if r =? 0 then pBuf else "", s)
  else (buf, s).

(** [for (size_t i = 0; i < count; out.emplace_back(GetStringHelper<FnGet>(i++)));] *)
Fixpoint fill (fuel : nat) (i count : Z) (out : list string) (s : St)
  : option (list string * St) :=
  match fuel with
  | O => None
  | S fuel' =>
      if i <? count
      then let '(str, s) := GetStringHelper 1024 i s in
           fill fuel' (i + 1) count (out ++ [str]) s
      else Some (out, s)
  end.

(** [template <typename T, auto* FnCount, auto* FnGet>
     auto GetModListHelper(size_t count = FnCount()) {
       static std::vector<T> out;
       if (out.empty()) { out.reserve(count); <the loop> }
       return out; }]
    [out] is the static vector at the call; the result is the vector
    returned, the static vector left, and the library state. *)
Definition GetModListHelper (fuel : nat) (count : Z) (out : list string) (s : St)
  : option (list string * list string * St) :=
  match out with
  | [] => '(out, s) ← fill fuel 0 count out s; Some (out, out, s)
  | _ :: _ => Some (out, out, s)
  end.

(** [GetLoadedModuleNames()], [GetModuleDirectories()]: the helper with its
    default argument, evaluated at each call. *)
Definition GetModList (fuel : nat) (out : list string) (s : St)
  : option (list string * list string * St) :=
  let '(count, s) := FnCount s in
  GetModListHelper fuel count out s.

End WithLibrary.
End OP2Ext.

(* ===================================================================== *)
(** * Properties of Common/Util.h *)
(* ===================================================================== *)

Module UtilFacts.
Import Util.

Lemma in_range_testbit_high w z n :
  0 <= w -> in_range w z -> w <= n -> Z.testbit z n = false.
Proof.
  intros Hw [Hlo Hhi] Hn.
  rewrite <- (Z.mod_small z (2 ^ w)) by lia.
  apply Z.mod_pow2_bits_high. lia.
Qed.

Lemma wrap_bits w z n :
  0 <= w -> 0 <= n ->
  Z.testbit (wrap w z) n = (n <? w) && Z.testbit z n.
Proof.
  intros Hw Hn. unfold wrap. destruct (Z.ltb_spec n w).
  - rewrite Z.mod_pow2_bits_low by lia. reflexivity.
  - rewrite Z.mod_pow2_bits_high by lia. reflexivity.
Qed.

(** A value whose bits at and above [w] are clear is left alone by [wrap]. *)
Lemma wrap_id_bits w z :
  0 <= w -> (forall n, w <= n -> Z.testbit z n = false) -> wrap w z = z.
Proof.
  intros Hw Hhigh. apply Z.bits_inj'. intros n Hn.
  rewrite wrap_bits by lia.
  destruct (Z.ltb_spec n w); [reflexivity | symmetry; apply Hhigh; lia].
Qed.

(** Bitwise view of the expression in [SetBitFlag], before conversion. *)
Lemma SetBitFlag_bits out flag (on : bool) n :
  0 <= n ->
  Z.testbit (Z.lxor out (Z.land (Z.lxor out (if on then flag else 0)) flag)) n
  = if Z.testbit flag n then on else Z.testbit out n.
Proof.
  intros Hn. rewrite Z.lxor_spec, Z.land_spec, Z.lxor_spec.
  destruct on; [| rewrite Z.bits_0];
    destruct (Z.testbit out n), (Z.testbit flag n); reflexivity.
Qed.

(** Under a [w]-bit [out], the complement of [flag] may be taken at any
    width. *)
Lemma land_wrap_lnot w out flag :
  0 <= w -> in_range w out ->
  Z.land out (wrap w (Z.lnot flag)) = Z.land out (Z.lnot flag).
Proof.
  intros Hw Hout. apply Z.bits_inj'. intros n Hn.
  rewrite !Z.land_spec, wrap_bits by lia.
  destruct (Z.ltb_spec n w); [reflexivity |].
  rewrite (in_range_testbit_high w out n) by auto. reflexivity.
Qed.

(** C9.  For an unsigned [w]-bit mask [out] and flag [flag],
    [SetBitFlag(out, flag, on)] leaves [out | flag] in [out] when [on] is
    true and [out & ~flag] when it is false, [~flag] being the [w]-bit
    complement, and no bit of [out] outside [flag] changes. *)
Theorem SetBitFlag_spec w out flag on :
  0 <= w -> in_range w out -> in_range w flag ->
  SetBitFlag w out flag on
    = (if on then Z.lor out flag else Z.land out (wrap w (Z.lnot flag)))
  /\ (forall i, 0 <= i -> Z.testbit flag i = false ->
        Z.testbit (SetBitFlag w out flag on) i = Z.testbit out i).
Proof.
  intros Hw Hout Hflag.
  rewrite (land_wrap_lnot w out flag Hw Hout).
  assert (Hid : SetBitFlag w out flag on
                = Z.lxor out (Z.land (Z.lxor out (if on then flag else 0)) flag)).
  { unfold SetBitFlag. apply wrap_id_bits; [exact Hw |].
    intros n Hn. rewrite SetBitFlag_bits by lia.
    rewrite (in_range_testbit_high w flag n), (in_range_testbit_high w out n);
      auto. }
  split.
  - rewrite Hid. apply Z.bits_inj'. intros n Hn.
    rewrite SetBitFlag_bits by exact Hn.
    destruct on.
    + rewrite Z.lor_spec.
      destruct (Z.testbit flag n), (Z.testbit out n); reflexivity.
    + rewrite Z.land_spec, Z.lnot_spec by exact Hn.
      destruct (Z.testbit flag n), (Z.testbit out n); reflexivity.
  - intros i Hi Hclear. rewrite Hid, SetBitFlag_bits by exact Hi.
    rewrite Hclear. reflexivity.
Qed.

Lemma SetBitFlag_spec_witness :
  SetBitFlag 32 0xFF 0x0C false = Z.land 0xFF (wrap 32 (Z.lnot 0x0C))
  /\ (forall i, 0 <= i -> Z.testbit 0x0C i = false ->
        Z.testbit (SetBitFlag 32 0xFF 0x0C false) i = Z.testbit 0xFF i).
Proof.
  apply (SetBitFlag_spec 32 0xFF 0x0C false); unfold in_range; lia.
Defined.

Example SetBitFlag_values :
  SetBitFlag 32 0xFF 0x0C false = 0xF3 /\ SetBitFlag 32 0x0F 0x30 true = 0x3F
  /\ wrap 32 (Z.lnot 0x0C) = 0xFFFFFFF3.
Proof. repeat split; reflexivity. Qed.

(** ** GetNextBit *)

Lemma ctz_pos_nonneg p : 0 <= ctz_pos p.
Proof. induction p; simpl; lia. Qed.

Lemma ctz_pos_lowest p : lowest_set_bit (Zpos p) (ctz_pos p).
Proof.
  induction p as [q IH | q IH |]; simpl ctz_pos.
  - split; [lia |]. split; [reflexivity | intros; lia].
  - destruct IH as (Hnn & Hset & Hclr).
    assert (Hdouble : Zpos q~0 = 2 * Zpos q) by reflexivity.
    split; [lia |]. split.
    + rewrite Hdouble. replace (1 + ctz_pos q) with (Z.succ (ctz_pos q)) by lia.
      rewrite Z.testbit_even_succ by exact Hnn. exact Hset.
    + intros j Hj. rewrite Hdouble.
      destruct (Z.eq_dec j 0) as [-> | Hne].
      * apply Z.testbit_even_0.
      * replace j with (Z.succ (j - 1)) by lia.
        rewrite Z.testbit_even_succ by lia. apply Hclr. lia.
  - split; [lia |]. split; [reflexivity | intros; lia].
Qed.

Lemma ctz_pos_bound p n : 0 <= n -> Zpos p < 2 ^ n -> ctz_pos p < Z.max n 1.
Proof.
  revert n. induction p as [q IH | q IH |]; intros n Hn Hlt; simpl ctz_pos; try lia.
  assert (0 < n).
  { destruct (Z.eq_dec n 0) as [-> | ]; [simpl in Hlt; lia | lia]. }
  assert (Hq : Zpos q < 2 ^ (n - 1)).
  { replace n with (Z.succ (n - 1)) in Hlt by lia.
    rewrite Z.pow_succ_r in Hlt by lia. lia. }
  specialize (IH (n - 1) ltac:(lia) Hq).
  assert (1 < n).
  { destruct (Z.eq_dec n 1) as [-> | ]; [simpl in Hq; lia | lia]. }
  lia.
Qed.

(** The portable loop stops on the lowest set bit, leaving the mask shifted
    down to it. *)
Lemma scan_loop_pos p : forall fuel index,
  0 <= index -> index + ctz_pos p < 2 ^ 32 ->
  (Z.to_nat (ctz_pos p) < fuel)%nat ->
  scan_loop fuel (Zpos p) index
    = Some (Z.shiftr (Zpos p) (ctz_pos p), index + ctz_pos p).
Proof.
  induction p as [q IH | q IH |]; intros fuel index Hidx Hlt Hfuel;
    (destruct fuel as [| fuel]; [lia |]).
  - simpl. rewrite Z.add_0_r. reflexivity.
  - pose proof (ctz_pos_nonneg q) as Hq.
    simpl ctz_pos in *.
    change (scan_loop (S fuel) (Z.pos q~0) index)
      with (scan_loop fuel (Zpos q) (wrap 32 (index + 1))).
    unfold wrap. rewrite Z.mod_small by lia.
    rewrite IH by lia.
    f_equal. f_equal; [| lia].
    rewrite <- (Z.shiftr_shiftr (Z.pos q~0) 1 (ctz_pos q)) by lia.
    reflexivity.
  - simpl. rewrite Z.add_0_r. reflexivity.
Qed.

Lemma shiftr_ctz_nonzero p : Z.shiftr (Zpos p) (ctz_pos p) <> 0.
Proof.
  destruct (ctz_pos_lowest p) as (Hnn & Hset & _).
  intros Hz.
  assert (Hbit : Z.testbit (Z.shiftr (Zpos p) (ctz_pos p)) 0 = true).
  { rewrite Z.shiftr_spec by lia. exact Hset. }
  rewrite Hz in Hbit. discriminate.
Qed.

(** C10, as the code has it.  For a 32-bit mask, every body of [GetNextBit]
    returns, and returns true exactly when the mask is nonzero; for a
    nonzero mask the index stored is that of the least significant set bit.
    For a zero mask the portable body leaves the index alone, the x86
    Windows body stores 32, and the other two leave what their intrinsic
    leaves. *)
Theorem GetNextBit_spec undefined_scan fuel target index mask :
  in_range 32 mask -> (32 <= fuel)%nat ->
  exists result index',
    GetNextBit undefined_scan fuel target index mask = Some (result, index')
    /\ (result = true <-> mask <> 0)
    /\ (mask <> 0 -> lowest_set_bit mask index')
    /\ (mask = 0 ->
        index' = match target with
                 | Portable => index
                 | Win32_IX86 => 32
                 | Win32_Other | GNUC => undefined_scan index
                 end).
Proof.
  intros [Hlo Hhi] Hfuel.
  destruct mask as [| p | p]; [| | lia].
  - exists false.
    destruct target; eexists; (split; [reflexivity |]);
      (split; [split; [discriminate | congruence] |]);
      (split; [congruence | reflexivity]).
  - pose proof (ctz_pos_bound p 32 ltac:(lia) Hhi) as Hb.
    pose proof (ctz_pos_nonneg p) as Hnn.
    exists true, (ctz_pos p).
    assert (Hrest : (true = true <-> Z.pos p <> 0)
                    /\ (Z.pos p <> 0 -> lowest_set_bit (Z.pos p) (ctz_pos p))
                    /\ (Z.pos p = 0 -> ctz_pos p =
                          match target with
                          | Portable => index
                          | Win32_IX86 => 32
                          | _ => undefined_scan index
                          end)).
    { split; [split; [discriminate | reflexivity] |].
      split; [intros _; apply ctz_pos_lowest | discriminate]. }
    split; [| exact Hrest].
    destruct target; try reflexivity.
    unfold GetNextBit.
    change (negb (Z.pos p =? 0)) with true. cbv iota.
    rewrite scan_loop_pos by lia.
    pose proof (shiftr_ctz_nonzero p) as Hnz.
    destruct (Z.eqb_spec (Z.shiftr (Z.pos p) (ctz_pos p)) 0) as [Heq | _];
      [contradiction |].
    reflexivity.
Qed.

Lemma GetNextBit_spec_witness :
  exists result index',
    GetNextBit (fun i => i) 32 Portable 0 0x28 = Some (result, index')
    /\ (result = true <-> 0x28 <> 0)
    /\ (0x28 <> 0 -> lowest_set_bit 0x28 index')
    /\ (0x28 = 0 -> index' = 0).
Proof.
  apply (GetNextBit_spec (fun i => i) 32 Portable 0 0x28);
    [unfold in_range; lia | lia].
Defined.

Example GetNextBit_portable : GetNextBit (fun i => i) 32 Portable 0 0x28 = Some (true, 3).
Proof. reflexivity. Qed.

(** On the x86 Windows body a zero mask does not leave [*pIndex] unchanged:
    [_tzcnt_u32(0)] is stored. *)
Lemma GetNextBit_zero_mask_overwrites :
  GetNextBit (fun i => i) 32 Win32_IX86 5 0 = Some (false, 32) /\ 32 <> 5.
Proof. split; [reflexivity | lia]. Qed.

End UtilFacts.

(* ===================================================================== *)
(** * Running programs against a host *)
(* ===================================================================== *)

Module HostFacts.

Lemma run_bind {A B} (H : Model) (p : Prog A) (f : A -> Prog B) (s : state H) :
  run H (p ≫= f) s
  = let o := run H p s in
    let o' := run H (f (value o)) (final o) in
    mkOutcome (value o') (final o') (trace o ++ trace o').
Proof.
  revert s. induction p as [r | a k IH]; intros s.
  - simpl. destruct (run H (f r) s); reflexivity.
  - change (run H (Do a (fun r => k r ≫= f)) s = 
            let o := run H (Do a k) s in
            let o' := run H (f (value o)) (final o) in
            mkOutcome (value o') (final o') (trace o ++ trace o')).
    simpl. destruct (respond H a s) as [r s']. rewrite IH. reflexivity.
Qed.

(** A single access whose returned value is the result. *)
Lemma run_call_ret (H : Model) (a : Access) (s : state H) :
  run H (r ← call a; mret (ret r)) s
  = mkOutcome (ret (fst (respond H a s))) (snd (respond H a s))
      [mkEvent a (fst (respond H a s))].
Proof. simpl. destruct (respond H a s); reflexivity. Qed.

End HostFacts.

(** Splits the next reply of the host in the goal. *)
Ltac host_step :=
  match goal with
  | |- context [respond ?H ?a ?s] =>
      let r := fresh "r" in
      let s' := fresh "s" in
      let E := fresh "E" in
      destruct (respond H a s) as [r s'] eqn:E; cbn [fst snd]
  end.

(* ===================================================================== *)
(** * Properties of Game/TubeConnection.h *)
(* ===================================================================== *)

Module TubeFacts.

(** C4.  [CalculateAverageDIRTDamageProtection(playerNum)] and
    [CalculateDIRTDamagePrevention()] each make exactly one access to the
    host, the member call at 0x42FF90, respectively 0x430050, with their
    arguments unchanged, and return what that call returned; the host state
    left is the one that call left. *)
Theorem DIRT_damage_is_one_thunk (H : Model) (s : state H) (this playerNum : Z) :
  let o := run H (TubeConnectionManager.CalculateAverageDIRTDamageProtection
                    this playerNum) s in
  let o' := run H (TubeConnection.CalculateDIRTDamagePrevention this) s in
  (exists r, trace o = [mkEvent (Thunk 0x42FF90 this [VInt playerNum]) r]
             /\ value o = ret r
             /\ respond H (Thunk 0x42FF90 this [VInt playerNum]) s = (r, final o))
  /\ (exists r, trace o' = [mkEvent (Thunk 0x430050 this []) r]
                /\ value o' = ret r
                /\ respond H (Thunk 0x430050 this []) s = (r, final o')).
Proof.
  cbn zeta. split.
  - unfold TubeConnectionManager.CalculateAverageDIRTDamageProtection.
    rewrite HostFacts.run_call_ret. cbn [trace value final].
    destruct (respond H _ s) as [r s'] eqn:E. exists r. auto.
  - unfold TubeConnection.CalculateDIRTDamagePrevention.
    rewrite HostFacts.run_call_ret. cbn [trace value final].
    destruct (respond H _ s) as [r s'] eqn:E. exists r. auto.
Qed.

Example DIRT_damage_on_counting_host :
  run counting_host (TubeConnection.CalculateDIRTDamagePrevention 0x547390) 0%nat
  = mkOutcome 1 1%nat [mkEvent (Thunk 0x430050 0x547390 []) (mkReply 1 None)].
Proof. reflexivity. Qed.

End TubeFacts.

(* ===================================================================== *)
(** * Properties of API/GameMap.h *)
(* ===================================================================== *)

Module GameMapFacts.
Import GameMap.

(** C5.  [GameMap::Load(filename)] reads no file: its accesses to the host
    are, in order, the map instance, [Deinit] on it, the map instance again
    and [LoadFromFile] on it with [filename]; it returns the truth value of
    what [LoadFromFile] returned. *)
Theorem Load_delegates (H : Model) (s : state H) (filename : string) :
  let o := run H (Load filename) s in
  exists r1 r2 r3 r4,
    trace o = [mkEvent (Extern "MapImpl::GetInstance" []) r1;
               mkEvent (Extern "MapImpl::Deinit" [VInt (ret r1)]) r2;
               mkEvent (Extern "MapImpl::GetInstance" []) r3;
               mkEvent (Extern "MapImpl::LoadFromFile"
                          [VInt (ret r3); VStr filename]) r4]
    /\ value o = truthy (ret r4).
Proof.
  cbn zeta. unfold Load, GetImpl, extern. simpl.
  do 4 host_step.
  eexists _, _, _, _. split; reflexivity.
Qed.

Example Load_on_counting_host :
  let o := run counting_host (Load "eden04.map") 0%nat in
  value o = true /\ final o = 4%nat.
Proof. split; reflexivity. Qed.

Lemma spec_SetTiles_accesses (H : Model) (tiles : list (Location * Z)) :
  forall s : state H,
    List.map access (trace (run H (spec_SetTiles tiles) s))
    = List.map SetTile_access tiles.
Proof.
  induction tiles as [| [l i] rest IH]; intros s.
  - reflexivity.
  - change (spec_SetTiles ((l, i) :: rest))
      with (SetTile l i ≫= fun _ => spec_SetTiles rest).
    rewrite HostFacts.run_bind. cbn zeta. cbn [trace].
    rewrite List.map_app, IH.
    unfold SetTile. simpl. host_step. reflexivity.
Qed.

Lemma spec_SetTile_of_lookup_trace (H : Model) (s : state H) (f : string)
    (where_ : Location) :
  exists rI rM rG rL rS,
    trace (run H (spec_SetTile_of_lookup f where_) s)
    = [mkEvent (Extern "MapImpl::GetInstance" []) rI;
       mkEvent (Extern "MapImpl::pTerrainManager_" [VInt (ret rI)]) rM;
       mkEvent (OP2Thunk 0x476D00 [VLoc where_]) rG;
       mkEvent (Extern f [VInt (ret rM); VInt (ret rG)]) rL;
       mkEvent (OP2Thunk 0x476D80 [VLoc where_; VInt (ret rL)]) rS].
Proof.
  unfold spec_SetTile_of_lookup, pTerrainManager_, GetImpl, GetTile, SetTile,
    extern, thunk. simpl.
  do 5 host_step.
  eexists _, _, _, _, _. reflexivity.
Qed.

(** C7.  Against every host, each of [SetBulldozed], [CreateScorchMark],
    [CreateCommonRubble] and [CreateRareRubble] runs as
    [SetTile(where, f(GetTile(where)))] with [f] its terrain manager lookup:
    the only calls are [GetTile] on the location and [SetTile] on it with
    what the lookup returned for that tile.  Each lava-flow helper runs as
    the listed sequence of [SetTile] calls on the tile and its neighbours,
    and makes no other access. *)
Theorem terrain_helpers_compose (hdr : Headers) (H : Model) (s : state H)
    (where_ : Location) :
  let S := mkLocation 0 1 in
  let E := mkLocation 1 0 in
  let SE := mkLocation 1 1 in
  let at_ (d : Location) := Location_add hdr where_ d in
  (run H (SetBulldozed where_) s
     = run H (spec_SetTile_of_lookup "TerrainManager::GetBulldozedTileIndex" where_) s
   /\ run H (CreateScorchMark where_) s
     = run H (spec_SetTile_of_lookup "TerrainManager::GetScorchMarkTileIndex" where_) s
   /\ run H (CreateCommonRubble where_) s
     = run H (spec_SetTile_of_lookup "TerrainManager::GetCommonRubbleTileIndex" where_) s
   /\ run H (CreateRareRubble where_) s
     = run H (spec_SetTile_of_lookup "TerrainManager::GetRareRubbleTileIndex" where_) s)
  /\ (forall f, exists rI rM rG rL rS,
        trace (run H (spec_SetTile_of_lookup f where_) s)
        = [mkEvent (Extern "MapImpl::GetInstance" []) rI;
           mkEvent (Extern "MapImpl::pTerrainManager_" [VInt (ret rI)]) rM;
           mkEvent (OP2Thunk 0x476D00 [VLoc where_]) rG;
           mkEvent (Extern f [VInt (ret rM); VInt (ret rG)]) rL;
           mkEvent (OP2Thunk 0x476D80 [VLoc where_; VInt (ret rL)]) rS])
  /\ (run H (CreateLavaFlowSW hdr where_) s
      = run H (spec_SetTiles [(where_, 0x447); (at_ S, 0x45E);
                              (at_ E, 0x453); (at_ SE, 0x469)]) s
      /\ run H (CreateLavaFlowS hdr where_) s
      = run H (spec_SetTiles [(where_, 0x474); (at_ S, 0x47E)]) s
      /\ run H (CreateLavaFlowSE hdr where_) s
      = run H (spec_SetTiles [(where_, 0x489); (at_ S, 0x4A0);
                              (at_ E, 0x494); (at_ SE, 0x4AB)]) s
      /\ run H (FreezeLavaFlowSW hdr where_) s
      = run H (spec_SetTiles [(where_, 0x44F); (at_ S, 0x465);
                              (at_ E, 0x45A); (at_ SE, 0x470)]) s
      /\ run H (FreezeLavaFlowS hdr where_) s
      = run H (spec_SetTiles [(where_, 0x47B); (at_ S, 0x486)]) s
      /\ run H (FreezeLavaFlowSE hdr where_) s
      = run H (spec_SetTiles [(where_, 0x490); (at_ S, 0x4A8);
                              (at_ E, 0x49C); (at_ SE, 0x4B2)]) s)
  /\ (forall tiles,
        List.map access (trace (run H (spec_SetTiles tiles) s))
        = List.map SetTile_access tiles).
Proof.
  cbn zeta. split; [| split; [| split]].
  - repeat split; reflexivity.
  - intros f. apply spec_SetTile_of_lookup_trace.
  - repeat split; reflexivity.
  - intros tiles. apply spec_SetTiles_accesses.
Qed.

Example CreateLavaFlowS_on_counting_host :
  List.map access
    (trace (run counting_host (CreateLavaFlowS sample_headers (mkLocation 10 20)) 0%nat))
  = [OP2Thunk 0x476D80 [VLoc (mkLocation 10 20); VInt 0x474];
     OP2Thunk 0x476D80 [VLoc (mkLocation 10 21); VInt 0x47E]].
Proof. reflexivity. Qed.

End GameMapFacts.

(* ===================================================================== *)
(** * Properties of API/Game.h *)
(* ===================================================================== *)

Module GameFacts.
Import Game.

(** C8.  With [techID] below 8000 or above 12095, [CreateWreckage] returns
    the default unit, makes no access to the host at all, and leaves the
    host state as it was: the call at 0x4789F0 is made only for
    [8000 <= techID <= 12095]. *)
Theorem CreateWreckage_out_of_range (hdr : Headers) (H : Model) (s : state H)
    (location : Location) (techID : Z) (isDiscovered : bool) :
  techID < 8000 \/ 12095 < techID ->
  run H (CreateWreckage hdr location techID isDiscovered) s
  = mkOutcome (Unit_default hdr) s [].
Proof.
  intros Hout. unfold CreateWreckage.
  assert (Hguard : (techID >=? 8000) && (techID <=? 12095) = false).
  { apply andb_false_iff. destruct Hout; [left | right]; lia. }
  rewrite Hguard. reflexivity.
Qed.

Lemma CreateWreckage_out_of_range_witness :
  run counting_host (CreateWreckage sample_headers (mkLocation 3 4) 7999 true) 0%nat
  = mkOutcome (Unit_default sample_headers) 0%nat [].
Proof.
  apply (CreateWreckage_out_of_range sample_headers counting_host 0%nat
           (mkLocation 3 4) 7999 true).
  left. lia.
Defined.

(** In range, the first access is the call at 0x4789F0 with the location,
    the tech id and the flag. *)
Lemma CreateWreckage_in_range (hdr : Headers) (H : Model) (s : state H)
    (location : Location) (techID : Z) (isDiscovered : bool) :
  8000 <= techID <= 12095 ->
  exists r rest,
    trace (run H (CreateWreckage hdr location techID isDiscovered) s)
    = mkEvent (OP2Thunk 0x4789F0 [VInt (x location); VInt (y location);
                                   VInt techID; VInt (ibool_of isDiscovered)]) r
      :: rest.
Proof.
  intros Hin. unfold CreateWreckage.
  assert (Hguard : (techID >=? 8000) && (techID <=? 12095) = true).
  { apply andb_true_iff. split; lia. }
  rewrite Hguard. unfold thunk. simpl. host_step.
  eexists _, _. reflexivity.
Qed.

Example CreateWreckage_boundaries :
  let first_access techID :=
    hd_error
      (List.map access
         (trace (run counting_host
                   (CreateWreckage sample_headers (mkLocation 3 4) techID false) 0%nat))) in
  first_access 7999 = None /\ first_access 12096 = None
  /\ first_access 8000 = Some (OP2Thunk 0x4789F0 [VInt 3; VInt 4; VInt 8000; VInt 0])
  /\ first_access 12095 = Some (OP2Thunk 0x4789F0 [VInt 3; VInt 4; VInt 12095; VInt 0]).
Proof. repeat split; reflexivity. Qed.

(** C2.  Every call to [CreateUnit] reaches the host through the call at
    0x478780: it is the first access, made on the state the caller left, with
    the type, location, owner number, weapon or cargo and rotation forwarded
    unchanged, and the [Unit] returned is the one that call left in [u].
    Placement is that call alone: the accesses after it are the query
    whether the unit is a vehicle and, for a vehicle with [lightsOn] set,
    the switching on of its lights. *)
Theorem CreateUnit_spec (hdr : Headers) (H : Model) (s : state H)
    (type : Z) (where_ : Location) (ownerNum weaponCargo rotation : Z)
    (lightsOn : bool) :
  let o := run H (CreateUnit hdr type where_ ownerNum weaponCargo rotation lightsOn) s in
  let a := OP2Thunk 0x478780 [VRef (Unit_null hdr); VInt type; VLoc where_;
                              VInt ownerNum; VInt weaponCargo; VInt rotation] in
  exists r rV rest,
    trace o = mkEvent a r
              :: mkEvent (Extern "Unit::IsVehicle" [VRef (id_ (value o))]) rV
              :: rest
    /\ fst (respond H a s) = r
    /\ value o = match stored r with
                 | Some id => mkUnit id
                 | None => Unit_default hdr
                 end
    /\ List.map access rest
       = if truthy (ret rV) && lightsOn
         then [Extern "Unit::DoSetLights" [VRef (id_ (value o)); VInt 1]]
         else [].
Proof.
  cbn zeta. unfold CreateUnit, extern. simpl.
  host_step. host_step.
  destruct (truthy (ret r0) && lightsOn) eqn:Hl; simpl.
  - host_step. eexists _, _, _. rewrite Hl. repeat split; reflexivity.
  - eexists _, _, _. rewrite Hl. repeat split; reflexivity.
Qed.

Example CreateUnit_lights :
  let accesses lightsOn :=
    List.map access
      (trace (run counting_host
                (CreateUnit sample_headers 1 (mkLocation 2 3) 0 0 0 lightsOn) 0%nat)) in
  accesses true
  = [OP2Thunk 0x478780 [VRef 0; VInt 1; VLoc (mkLocation 2 3); VInt 0; VInt 0; VInt 0];
     Extern "Unit::IsVehicle" [VRef 7];
     Extern "Unit::DoSetLights" [VRef 7; VInt 1]]
  /\ accesses false
  = [OP2Thunk 0x478780 [VRef 0; VInt 1; VLoc (mkLocation 2 3); VInt 0; VInt 0; VInt 0];
     Extern "Unit::IsVehicle" [VRef 7]].
Proof. split; reflexivity. Qed.

End GameFacts.

Module CreateMineFacts.
Import Game.

(** C1, as the code has it.  [Game::CreateMine] is not a bare field access
    or thunk: it implements logic of its own.  It picks the map id from the
    mine type (magma vent, fumarole, else mining beacon).  When a mining
    beacon is asked for with a random yield and a variant that is not random,
    it first draws [GetRand(10)] and takes three bars for 0..1, two bars for
    2..7 and one bar otherwise as the yield.  It then asks the mine manager
    for the variant number of that yield and the variant, calls 0x478940 with
    the map id, the location, the mine type raised to at least [RandomOre],
    that yield and that variant number, and returns the head of player 6's
    beacons when that call returns nonzero and the default unit when it
    returns zero.  Those are all its accesses to the host, in that order. *)
Theorem CreateMine_spec (hdr : Headers) (H : Model) (s : state H)
    (location : Location) (type yield variant : Z) :
  let o := run H (CreateMine hdr location type yield variant) s in
  let mapID :=
    if type =? -2 then MapID_MagmaVent hdr
    else if type =? -3 then MapID_Fumarole hdr
    else MapID_MiningBeacon hdr in
  let pregenerated :=
    (mapID =? MapID_MiningBeacon hdr) && (yield =? OreYield_Random hdr)
    && negb (variant =? OreVariant_Random hdr) in
  exists pre yield' rM rV rT post,
    trace o
    = pre
      ++ [mkEvent (Extern "MineManager::GetInstance" []) rM;
          mkEvent (Extern "MineManager::GetVariantNum"
                     [VInt (ret rM); VInt yield'; VInt variant]) rV;
          mkEvent (OP2Thunk 0x478940
                     [VInt mapID; VInt (x location); VInt (y location);
                      VInt (Z.max type (OreType_Random hdr));
                      VInt yield'; VInt (ret rV)]) rT]
      ++ post
    /\ (if pregenerated
        then exists rI rR,
               pre = [mkEvent (Extern "Random::GetInstance" []) rI;
                      mkEvent (Extern "Random::Rand" [VInt (ret rI); VInt 10]) rR]
               /\ yield' = (if ret rR <=? 1 then OreYield_Bar3 hdr
                            else if ret rR <=? 7 then OreYield_Bar2 hdr
                            else OreYield_Bar1 hdr)
        else pre = [] /\ yield' = yield)
    /\ (if ret rT =? 0
        then post = [] /\ value o = Unit_default hdr
        else exists rP rB rU,
               post = [mkEvent (Extern "_Player::GetInstance" [VInt 6]) rP;
                       mkEvent (Extern "_Player::GetBeacons" [VInt (ret rP)]) rB;
                       mkEvent (Deref (ret rB)) rU]
               /\ value o = mkUnit (ret rU)).
Proof.
  cbn zeta. unfold CreateMine, MineType_MagmaVent, MineType_Fumarole,
    MineType_RandomOre.
  set (mapID := if type =? -2 then MapID_MagmaVent hdr
                else if type =? -3 then MapID_Fumarole hdr
                else MapID_MiningBeacon hdr).
  destruct ((mapID =? MapID_MiningBeacon hdr) && (yield =? OreYield_Random hdr)
            && negb (variant =? OreVariant_Random hdr)) eqn:Hpre.
  - unfold GetRand, first_beacon, extern, thunk, truthy. simpl.
    do 5 host_step.
    destruct (ret r3 =? 0) eqn:Hz; simpl.
    + exists [mkEvent (Extern "Random::GetInstance" []) r;
              mkEvent (Extern "Random::Rand" [VInt (ret r); VInt 10]) r0].
      eexists _, r1, r2, r3, []. rewrite Hz.
      split; [reflexivity |]. split; [| split; reflexivity].
      exists r, r0. split; reflexivity.
    + do 3 host_step.
      exists [mkEvent (Extern "Random::GetInstance" []) r;
              mkEvent (Extern "Random::Rand" [VInt (ret r); VInt 10]) r0].
      eexists _, r1, r2, r3, _. rewrite Hz.
      split; [reflexivity |]. split.
      * exists r, r0. split; reflexivity.
      * eexists _, _, _. split; reflexivity.
  - unfold first_beacon, extern, thunk, truthy. simpl.
    do 3 host_step.
    destruct (ret r1 =? 0) eqn:Hz; simpl.
    + exists [], yield, r, r0, r1, []. rewrite Hz.
      repeat split; reflexivity.
    + do 3 host_step.
      exists [], yield, r, r0, r1. eexists. rewrite Hz.
      split; [reflexivity |]. split; [split; reflexivity |].
      eexists _, _, _. split; reflexivity.
Qed.

(** Against the counting host, [CreateMine] for a random ore beacon with a
    random yield and variant 0 makes eight accesses, and the yield it hands
    to 0x478940 is 0, which it drew itself, not the caller's -1: its
    behaviour is not one field access or one thunk. *)
Lemma CreateMine_not_one_access :
  let p := CreateMine sample_headers (mkLocation 5 6) (-1) (-1) 0 in
  (forall a, ~ only_access counting_host 0%nat p a)
  /\ List.map access (trace (run counting_host p 0%nat))
     = [Extern "Random::GetInstance" [];
        Extern "Random::Rand" [VInt 1; VInt 10];
        Extern "MineManager::GetInstance" [];
        Extern "MineManager::GetVariantNum" [VInt 1; VInt 0; VInt 0];
        OP2Thunk 0x478940 [VInt 124; VInt 5; VInt 6; VInt (-1); VInt 0; VInt 1];
        Extern "_Player::GetInstance" [VInt 6];
        Extern "_Player::GetBeacons" [VInt 1];
        Deref 1].
Proof.
  cbn zeta. split.
  - intros a. unfold only_access. simpl. discriminate.
  - reflexivity.
Qed.

End CreateMineFacts.

(* ===================================================================== *)
(** * Properties of API/Trigger.h *)
(* ===================================================================== *)

Module TriggerFacts.
Import Trigger.

Lemma thunk_only_access (H : Model) (s : state H) (addr : Z) (args : list Val) :
  only_access H s (thunk addr args) (OP2Thunk addr args)
  /\ value (run H (thunk addr args) s) = ret (fst (respond H (OP2Thunk addr args) s)).
Proof.
  unfold only_access, thunk. rewrite HostFacts.run_call_ret. split; reflexivity.
Qed.

Section Factories.
Variables (hdr : Headers) (H : Model) (s : state H).
Variables (f : string) (oneShot enabled : bool) (p n m k c : Z).

Local Abbreviation only := (only_access H s).

(** Each factory makes one call to its fixed address and nothing else; the
    first two arguments are [enabled] and [oneShot] and the last is the
    trigger function name, for the factories that take them. *)
Lemma factories_are_one_thunk :
  only (CreateVictoryCondition n f oneShot enabled)
       (OP2Thunk 0x479930 [B enabled; B oneShot; VRef n; VStr f])
  /\ only (CreateFailureCondition n enabled)
       (OP2Thunk 0x479980 [B enabled; VInt 0; VRef n; VStr ""])
  /\ only (CreateLastOneStandingTrigger f oneShot enabled)
       (OP2Thunk 0x478F30 [B enabled; B oneShot; VStr f])
  /\ only (CreateSpaceRaceTrigger f p oneShot enabled)
       (OP2Thunk 0x479260 [B enabled; B oneShot; VInt p; VStr f])
  /\ only (CreateMidasTrigger n f oneShot enabled)
       (OP2Thunk 0x479300 [B enabled; B oneShot; VInt n; VStr f])
  /\ only (CreateResourceTrigger n c m f p oneShot enabled)
       (OP2Thunk 0x478DE0 [B enabled; B oneShot; VInt n; VInt m; VInt p;
                           VInt c; VStr f])
  /\ only (CreateResearchTrigger n f p oneShot enabled)
       (OP2Thunk 0x478E90 [B enabled; B oneShot; VInt n; VInt p; VStr f])
  /\ only (CreateKitTrigger n m f p oneShot enabled)
       (OP2Thunk 0x4791C0 [B enabled; B oneShot; VInt p; VInt n; VInt m; VStr f])
  /\ only (CreateCountTrigger n k c m f p oneShot enabled)
       (OP2Thunk 0x479110 [B enabled; B oneShot; VInt p; VInt n; VInt k;
                           VInt m; VInt c; VStr f])
  /\ only (CreateCountTrigger_cargo hdr k c m f p oneShot enabled)
       (OP2Thunk 0x479110 [B enabled; B oneShot; VInt p;
                           VInt (MapID_CargoTruck hdr); VInt k; VInt m;
                           VInt c; VStr f])
  /\ only (CreateOperationalTrigger n c m p f oneShot enabled)
       (OP2Thunk 0x479880 [B enabled; B oneShot; VInt p; VInt n; VInt m;
                           VInt c; VStr f])
  /\ only (CreateVehicleCountTrigger c m f p oneShot enabled)
       (OP2Thunk 0x479440 [B enabled; B oneShot; VInt p; VInt m; VInt c; VStr f])
  /\ only (CreateBuildingCountTrigger c m f p oneShot enabled)
       (OP2Thunk 0x4793A0 [B enabled; B oneShot; VInt p; VInt m; VInt c; VStr f])
  /\ only (CreateTimeTrigger n f oneShot enabled)
       (OP2Thunk 0x478D00 [B enabled; B oneShot; VInt n; VStr f])
  /\ only (CreateTimeTrigger_range n m f oneShot enabled)
       (OP2Thunk 0x478DA0 [B enabled; B oneShot; VInt n; VInt m; VStr f])
  /\ only (CreateSpecialTarget (mkUnit n) m f oneShot enabled)
       (OP2Thunk 0x4797A0 [B enabled; B oneShot; VRef n; VInt m; VStr f])
  /\ only (CreateAttackedTrigger n f oneShot enabled)
       (OP2Thunk 0x4795A0 [B enabled; B oneShot; VRef n; VStr f])
  /\ only (CreateDamagedTrigger n m f oneShot enabled)
       (OP2Thunk 0x479640 [B enabled; B oneShot; VRef n; VInt m; VStr f])
  /\ only (CreatePointTrigger (mkLocation n m) f p oneShot enabled)
       (OP2Thunk 0x479070 [B enabled; B oneShot; VInt p; VInt n; VInt m; VStr f]).
Proof. repeat split; apply thunk_only_access. Qed.

End Factories.

(** C3, at the rectangle (x1, y1, x2, y2) = (10, 20, 30, 40).
    [CreateRectTrigger] makes its one call, to 0x478FC0, with [area.x2] = 30
    in the place of the rectangle's [y1] = 20, which the host never
    receives; [CreateEscapeTrigger] on the same rectangle passes
    [area.x1, area.y1]. *)
Theorem CreateRectTrigger_passes_x2_for_y1 (hdr : Headers) (H : Model) (s : state H) :
  let area := mkMapRect 10 20 30 40 in
  only_access H s (CreateRectTrigger hdr area "OnEnter" 0 false true)
    (OP2Thunk 0x478FC0 [VInt 1; VInt 0; VInt 0; VInt 10; VInt 30;
                        VInt (MapRect_Width hdr area);
                        VInt (MapRect_Height hdr area); VStr "OnEnter"])
  /\ only_access H s (CreateEscapeTrigger hdr area 1 2 0 0 "OnEnter" 0 false true)
    (OP2Thunk 0x4796E0 [VInt 1; VInt 0; VInt 0; VInt 10; VInt 20;
                        VInt (MapRect_Width hdr area);
                        VInt (MapRect_Height hdr area); VInt 2; VInt 1;
                        VInt 0; VInt 0; VStr "OnEnter"]).
Proof. cbn zeta. split; apply thunk_only_access. Qed.

End TriggerFacts.

(* ===================================================================== *)
(** * Properties of API/Enumerators.h *)
(* ===================================================================== *)

Module EnumeratorsFacts.
Import Enumerators.

Section WithHeaders.
Variable hdr : Headers.
Variable Unit_of_MapObject : Memory -> Z -> Unit.
Variable m : Memory.

Local Abbreviation Any := (MapID_Any hdr).
Local Abbreviation settle := (Enumerators.settle hdr).

Lemma chain_first p l : chain m p l -> p = first_ptr l.
Proof. intros Hc. destruct Hc; reflexivity. Qed.

Lemma chain_inv p q o l :
  chain m p ((q, o) :: l) ->
  p = q /\ q <> nullptr /\ objects m !! q = Some o
  /\ pPlayerNext_ o = first_ptr l /\ chain m (first_ptr l) l.
Proof.
  intros Hc. inversion Hc as [| p' o' l' Hne Hlk Hrest]; subst.
  pose proof (chain_first _ _ Hrest) as Hnext.
  rewrite <- Hnext. auto.
Qed.

Lemma chain_seek type l : forall p,
  chain m p l -> chain m (first_ptr (seek type l)) (seek type l).
Proof.
  induction l as [| [q o] l IH]; intros p Hc.
  - constructor.
  - apply chain_inv in Hc as (-> & Hne & Hlk & Hnext & Hrest).
    simpl. destruct (negb (typeID o =? type)).
    + eapply IH; eassumption.
    + simpl. constructor; auto. rewrite Hnext. exact Hrest.
Qed.

Lemma seek_length type l : (length (seek type l) <= length l)%nat.
Proof.
  induction l as [| po l IH]; simpl; [lia |].
  destruct (negb (typeID (snd po) =? type)); simpl; lia.
Qed.

Lemma incr_chain p o l :
  chain m p ((p, o) :: l) -> PlayerUnitIterator_incr m p = Some (first_ptr l).
Proof.
  intros Hc. apply chain_inv in Hc as (_ & Hne & Hlk & Hnext & _).
  unfold PlayerUnitIterator_incr.
  destruct (Z.eqb_spec p nullptr) as [Heq | _]; [contradiction |].
  simpl. rewrite Hlk. simpl. rewrite Hnext. reflexivity.
Qed.

(** The do-while loop stops on the next object of the wanted type, or on
    the null pointer when there is none. *)
Lemma do_while_spec type l : forall p o fuel,
  chain m p ((p, o) :: l) -> (length l < fuel)%nat ->
  do_while fuel m type p = Some (first_ptr (seek type l)).
Proof.
  induction l as [| [q o'] l IH]; intros p o fuel Hc Hfuel;
    (destruct fuel as [| fuel]; [simpl in Hfuel; lia |]);
    simpl do_while; rewrite (incr_chain _ _ _ Hc); simpl.
  - reflexivity.
  - apply chain_inv in Hc as (_ & _ & _ & _ & Hrest). simpl in Hrest.
    pose proof Hrest as Hq.
    apply chain_inv in Hq as (_ & Hne & Hlk & _ & _).
    destruct (Z.eqb_spec q nullptr) as [Heq | _]; [contradiction |].
    simpl. rewrite Hlk. simpl.
    destruct (negb (typeID o' =? type)).
    + apply (IH q o' fuel Hrest). simpl in Hfuel. lia.
    + reflexivity.
Qed.

Lemma settle_length type l : (length (settle type l) <= length l)%nat.
Proof. unfold settle. destruct (type =? Any); [lia | apply seek_length]. Qed.

Lemma chain_settle type l p :
  chain m p l -> chain m (first_ptr (settle type l)) (settle type l).
Proof.
  intros Hc. unfold settle. destruct (type =? Any).
  - rewrite <- (chain_first _ _ Hc). exact Hc.
  - eapply chain_seek; eassumption.
Qed.

Lemma spec_units_settle type l :
  spec_units hdr Unit_of_MapObject m type (settle type l)
  = spec_units hdr Unit_of_MapObject m type l.
Proof.
  unfold settle, spec_units. destruct (Z.eqb_spec type Any) as [| Hne];
    [reflexivity |].
  assert (Hpass : forall po, passes hdr type po = (typeID (snd po) =? type)).
  { intros po. unfold passes.
    destruct (Z.eqb_spec type Any) as [| _]; [contradiction | reflexivity]. }
  f_equal. induction l as [| po l IH]; [reflexivity |].
  simpl. rewrite Hpass.
  destruct (typeID (snd po) =? type) eqn:E; simpl.
  - rewrite Hpass, E. reflexivity.
  - exact IH.
Qed.

Lemma settle_head_passes type po l l0 :
  settle type l0 = po :: l -> passes hdr type po = true.
Proof.
  unfold settle, passes. destruct (type =? Any); [reflexivity |].
  simpl. induction l0 as [| po0 l0 IH]; [discriminate |].
  simpl. destruct (typeID (snd po0) =? type) eqn:E; simpl.
  - intros [= <- _]. exact E.
  - exact IH.
Qed.

(** [operator++] moves a settled iterator to the next settled position. *)
Lemma incr_spec fuel type p o l :
  chain m p ((p, o) :: l) -> (length l < fuel)%nat ->
  incr hdr fuel m (mkIterator p type)
  = Some (mkIterator (first_ptr (settle type l)) type).
Proof.
  intros Hc Hfuel. unfold incr, settle. simpl.
  destruct (type =? Any).
  - rewrite (incr_chain _ _ _ Hc). reflexivity.
  - rewrite (do_while_spec type l p o fuel Hc Hfuel). reflexivity.
Qed.

(** The constructor settles the iterator on the chain it is given. *)
Lemma FilterPlayerUnitIterator_spec fuel type p l :
  chain m p l -> (length l < fuel)%nat ->
  FilterPlayerUnitIterator hdr fuel m p type
  = Some (mkIterator (first_ptr (settle type l)) type).
Proof.
  intros Hc Hfuel. unfold FilterPlayerUnitIterator.
  destruct l as [| [q o] l].
  - rewrite (chain_first _ _ Hc). unfold settle. simpl.
    destruct (type =? Any); reflexivity.
  - pose proof Hc as Hq.
    apply chain_inv in Hq as (-> & Hne & Hlk & _ & _).
    destruct (Z.eqb_spec q nullptr) as [| _]; [contradiction |]. simpl.
    destruct (type =? Any) eqn:EAny; simpl.
    + unfold settle. rewrite EAny. reflexivity.
    + rewrite Hlk. simpl. unfold settle. rewrite EAny. simpl.
      destruct (negb (typeID o =? type)) eqn:Et.
      * unfold incr. simpl. rewrite EAny.
        rewrite (do_while_spec type l q o fuel Hc) by (simpl in Hfuel; lia).
        reflexivity.
      * reflexivity.
Qed.

(** The loop from a settled position yields the units of the rest of the
    chain that pass the filter and appends them to the cache. *)
Lemma for_loop_spec type inner : forall fuel l cache,
  chain m (first_ptr l) l -> settle type l = l ->
  (length l < fuel)%nat -> (length l <= inner)%nat ->
  for_loop hdr Unit_of_MapObject fuel inner (mkWorld m cache)
    (mkIterator (first_ptr l) type) (mkIterator nullptr type)
  = Some (spec_units hdr Unit_of_MapObject m type l,
          mkWorld m (cache ++ spec_units hdr Unit_of_MapObject m type l)).
Proof.
  induction fuel as [| fuel IH]; intros l cache Hc Hset Hfuel Hinner; [lia |].
  destruct l as [| [p o] l].
  - simpl. unfold spec_units. simpl. rewrite app_nil_r. reflexivity.
  - pose proof Hc as Hp. simpl in Hp.
    apply chain_inv in Hp as (_ & Hne & Hlk & _ & Hrest).
    pose proof (settle_head_passes type (p, o) l _ Hset) as Hpass.
    simpl for_loop. unfold neq. simpl.
    destruct (Z.eqb_spec p nullptr) as [| _]; [contradiction |]. simpl.
    rewrite (incr_spec inner type p o l Hc) by (simpl in Hinner; lia).
    simpl.
    pose proof (settle_length type l) as Hlen.
    rewrite (IH (settle type l) (cache ++ [Unit_of_MapObject m p])).
    + simpl. rewrite spec_units_settle.
      unfold spec_units at 3 4. simpl. rewrite Hpass. simpl.
      rewrite <- app_assoc. reflexivity.
    + eapply chain_settle; eassumption.
    + unfold settle. destruct (Z.eqb_spec type Any) as [| Hne']; [reflexivity |].
      clear. induction l as [| po l IHl]; [reflexivity |].
      simpl. destruct (negb (typeID (snd po) =? type)) eqn:E; [exact IHl |].
      simpl. rewrite E. reflexivity.
    + simpl in Hfuel. lia.
    + simpl in Hinner. lia.
Qed.

End WithHeaders.

(** The loop over [begin()] and [end()], from the list head [begin()] reads. *)
Lemma enumerate_from_list_head (hdr : Headers)
    (Unit_of_MapObject : Memory -> Z -> Unit)
    (fuel : nat) (e : Enum) (playerNum type : Z) (m : Memory)
    (cache : list Unit) (l : list (Z * MapObject)) :
  chain m (list_head e (GetPlayer m playerNum)) l ->
  (length l < fuel)%nat ->
  enumerate hdr Unit_of_MapObject fuel e playerNum type (mkWorld m cache)
  = Some (spec_units hdr Unit_of_MapObject m type l,
          mkWorld m (cache ++ spec_units hdr Unit_of_MapObject m type l)).
Proof.
  intros Hc Hfuel.
  assert (Hend : FilterPlayerUnitIterator hdr fuel m nullptr type
                 = Some (mkIterator nullptr type)).
  { rewrite (FilterPlayerUnitIterator_spec hdr m fuel type nullptr [])
      by (constructor || (simpl; lia)).
    unfold settle. destruct (type =? MapID_Any hdr); reflexivity. }
  unfold enumerate, begin_, end_. cbn [mem].
  rewrite (FilterPlayerUnitIterator_spec hdr m fuel type _ l Hc Hfuel), Hend.
  cbn [mbind option_bind].
  pose proof (settle_length hdr type l) as Hlen.
  rewrite (for_loop_spec hdr Unit_of_MapObject m type fuel fuel (settle hdr type l)).
  - rewrite spec_units_settle. reflexivity.
  - eapply chain_settle; eassumption.
  - unfold settle. destruct (Z.eqb_spec type (MapID_Any hdr)) as [| Hne];
      [reflexivity |].
    clear. induction l as [| po l IHl]; [reflexivity |].
    simpl. destruct (negb (typeID (snd po) =? type)) eqn:E; [exact IHl |].
    simpl. rewrite E. reflexivity.
  - lia.
  - lia.
Qed.

(** C6.  For every player index and type filter, [PlayerVehicleEnum] walks
    the player's [pVehicleList_], [PlayerBuildingEnum] its [pBuildingList_]
    and [PlayerEntityEnum] its [pEntityList_]: when that list is a chain [l]
    of [pPlayerNext_] links ending in the null pointer, the iteration
    terminates and yields, in list order, the units of the objects of [l]
    whose type is the filter type, all of them for [MapID::Any]; host memory
    is left as it was, and the yielded units are appended to the
    enumerator's own cache. *)
Theorem enumerate_spec (hdr : Headers) (Unit_of_MapObject : Memory -> Z -> Unit)
    (fuel : nat) (e : Enum) (playerNum type : Z) (m : Memory)
    (cache : list Unit) (l : list (Z * MapObject)) :
  chain m (match e with
           | PlayerVehicleEnum  => pVehicleList_ (GetPlayer m playerNum)
           | PlayerBuildingEnum => pBuildingList_ (GetPlayer m playerNum)
           | PlayerEntityEnum   => pEntityList_ (GetPlayer m playerNum)
           end) l ->
  (length l < fuel)%nat ->
  enumerate hdr Unit_of_MapObject fuel e playerNum type (mkWorld m cache)
  = Some (spec_units hdr Unit_of_MapObject m type l,
          mkWorld m (cache ++ spec_units hdr Unit_of_MapObject m type l)).
Proof.
  intros Hc Hfuel. apply enumerate_from_list_head; [| exact Hfuel].
  destruct e; exact Hc.
Qed.

Lemma enumerate_spec_witness :
  enumerate sample_headers (fun _ p => mkUnit p) 3 PlayerVehicleEnum 0 9
    (mkWorld sample_lists [])
  = Some ([mkUnit 200], mkWorld sample_lists [mkUnit 200])
  /\ enumerate sample_headers (fun _ p => mkUnit p) 3 PlayerBuildingEnum 0 (-1)
       (mkWorld sample_lists [])
     = Some ([mkUnit 400], mkWorld sample_lists [mkUnit 400])
  /\ enumerate sample_headers (fun _ p => mkUnit p) 3 PlayerEntityEnum 0 5
       (mkWorld sample_lists [mkUnit 1])
     = Some ([mkUnit 600], mkWorld sample_lists [mkUnit 1; mkUnit 600]).
Proof.
  split; [| split].
  - apply (enumerate_spec sample_headers (fun _ p => mkUnit p) 3 PlayerVehicleEnum
             0 9 sample_lists [] [(100, mkMapObject 200 5); (200, mkMapObject 0 9)]).
    + repeat (constructor; [unfold nullptr; lia | vm_compute; reflexivity |]).
      constructor.
    + simpl. lia.
  - apply (enumerate_spec sample_headers (fun _ p => mkUnit p) 3 PlayerBuildingEnum
             0 (-1) sample_lists [] [(400, mkMapObject 0 21)]).
    + repeat (constructor; [unfold nullptr; lia | vm_compute; reflexivity |]).
      constructor.
    + simpl. lia.
  - apply (enumerate_spec sample_headers (fun _ p => mkUnit p) 3 PlayerEntityEnum
             0 5 sample_lists [mkUnit 1] [(600, mkMapObject 0 5)]).
    + repeat (constructor; [unfold nullptr; lia | vm_compute; reflexivity |]).
      constructor.
    + simpl. lia.
Defined.

Example enumerate_sample_memory :
  enumerate sample_headers (fun _ p => mkUnit p) 4 PlayerVehicleEnum 0 5
    (mkWorld sample_memory [])
  = Some ([mkUnit 100; mkUnit 300], mkWorld sample_memory [mkUnit 100; mkUnit 300]).
Proof. vm_compute. reflexivity. Qed.

Example enumerate_any :
  fst <$> enumerate sample_headers (fun _ p => mkUnit p) 4 PlayerVehicleEnum 0 (-1)
            (mkWorld sample_memory [])
  = Some [mkUnit 100; mkUnit 200; mkUnit 300].
Proof. vm_compute. reflexivity. Qed.

End EnumeratorsFacts.


(* ===================================================================== *)
(** * More properties of Common/Util.h *)
(* ===================================================================== *)

Module FlagsFacts.
Import Util Flags UtilFacts.

Lemma SetBitFlag_in_range w out flag on : 0 <= w -> in_range w (SetBitFlag w out flag on).
Proof.
  intros Hw. unfold SetBitFlag, wrap, in_range.
  apply Z.mod_pos_bound. apply Z.pow_pos_nonneg; lia.
Qed.

Lemma SetBitFlag_testbit w out flag on n :
  0 <= w -> in_range w out -> in_range w flag -> 0 <= n ->
  Z.testbit (SetBitFlag w out flag on) n
  = if Z.testbit flag n then on else Z.testbit out n.
Proof.
  intros Hw Hout Hflag Hn. unfold SetBitFlag.
  rewrite wrap_bits, SetBitFlag_bits by lia.
  destruct (Z.ltb_spec n w); [reflexivity |].
  rewrite (in_range_testbit_high w flag n), (in_range_testbit_high w out n) by auto.
  reflexivity.
Qed.

(** After a flag is set every bit of it tests as set, and after it is
    cleared none does. *)
Theorem SetBitFlag_then_test w out flag :
  0 <= w -> in_range w out -> in_range w flag ->
  BitFlagsTest (SetBitFlag w out flag true) flag = true
  /\ BitFlagTest (SetBitFlag w out flag false) flag = false.
Proof.
  intros Hw Hout Hflag. unfold BitFlagsTest, BitFlagTest. split.
  - apply Z.eqb_eq. apply Z.bits_inj'. intros n Hn.
    rewrite Z.land_spec, SetBitFlag_testbit by auto.
    destruct (Z.testbit flag n), (Z.testbit out n); reflexivity.
  - apply negb_false_iff, Z.eqb_eq. apply Z.bits_inj'. intros n Hn.
    rewrite Z.land_spec, SetBitFlag_testbit, Z.bits_0 by auto.
    destruct (Z.testbit flag n), (Z.testbit out n); reflexivity.
Qed.

Lemma SetBitFlag_then_test_witness :
  BitFlagsTest (SetBitFlag 8 0x81 0x18 true) 0x18 = true
  /\ BitFlagTest (SetBitFlag 8 0x99 0x18 false) 0x18 = false.
Proof.
  split.
  - apply (SetBitFlag_then_test 8 0x81 0x18); unfold in_range; lia.
  - apply (SetBitFlag_then_test 8 0x99 0x18); unfold in_range; lia.
Defined.

(** Setting or clearing a flag does not change how a flag disjoint from it
    tests. *)
Theorem SetBitFlag_keeps_other_flags w out flag other on :
  0 <= w -> in_range w out -> in_range w flag ->
  Z.land flag other = 0 ->
  BitFlagTest (SetBitFlag w out flag on) other = BitFlagTest out other
  /\ BitFlagsTest (SetBitFlag w out flag on) other = BitFlagsTest out other.
Proof.
  intros Hw Hout Hflag Hdisj.
  assert (Hland : Z.land (SetBitFlag w out flag on) other = Z.land out other).
  { apply Z.bits_inj'. intros n Hn.
    rewrite !Z.land_spec, SetBitFlag_testbit by auto.
    assert (Hbit : Z.testbit flag n && Z.testbit other n = false).
    { rewrite <- Z.land_spec, Hdisj. apply Z.bits_0. }
    revert Hbit.
    destruct (Z.testbit flag n), (Z.testbit other n); intros Hbit;
      try discriminate; rewrite ?andb_false_r; reflexivity. }
  unfold BitFlagTest, BitFlagsTest. rewrite Hland. split; reflexivity.
Qed.

Lemma SetBitFlag_keeps_other_flags_witness :
  BitFlagTest (SetBitFlag 8 0x81 0x18 true) 0x80 = BitFlagTest 0x81 0x80
  /\ BitFlagsTest (SetBitFlag 8 0x81 0x18 true) 0x80 = BitFlagsTest 0x81 0x80.
Proof.
  apply (SetBitFlag_keeps_other_flags 8 0x81 0x18 0x80 true);
    unfold in_range; try lia. reflexivity.
Defined.

(** The last write to a flag wins: an earlier [SetBitFlag] on the same flag
    leaves no trace. *)
Theorem SetBitFlag_last_wins w out flag a b :
  0 <= w -> in_range w out -> in_range w flag ->
  SetBitFlag w (SetBitFlag w out flag a) flag b = SetBitFlag w out flag b.
Proof.
  intros Hw Hout Hflag. apply Z.bits_inj'. intros n Hn.
  rewrite !SetBitFlag_testbit by auto using SetBitFlag_in_range.
  destruct (Z.testbit flag n); reflexivity.
Qed.

Lemma SetBitFlag_last_wins_witness :
  SetBitFlag 8 (SetBitFlag 8 0x81 0x18 true) 0x18 false = SetBitFlag 8 0x81 0x18 false.
Proof.
  apply (SetBitFlag_last_wins 8 0x81 0x18 true false); unfold in_range; lia.
Defined.

(** Writes to disjoint flags commute. *)
Theorem SetBitFlag_disjoint_commute w out f g a b :
  0 <= w -> in_range w out -> in_range w f -> in_range w g ->
  Z.land f g = 0 ->
  SetBitFlag w (SetBitFlag w out f a) g b = SetBitFlag w (SetBitFlag w out g b) f a.
Proof.
  intros Hw Hout Hf Hg Hdisj. apply Z.bits_inj'. intros n Hn.
  rewrite !SetBitFlag_testbit by auto using SetBitFlag_in_range.
  assert (Hbit : Z.testbit f n && Z.testbit g n = false).
  { rewrite <- Z.land_spec, Hdisj. apply Z.bits_0. }
  revert Hbit.
  destruct (Z.testbit f n), (Z.testbit g n); intros Hbit;
    try reflexivity; discriminate.
Qed.

Lemma SetBitFlag_disjoint_commute_witness :
  SetBitFlag 8 (SetBitFlag 8 0x81 0x18 true) 0x80 false
  = SetBitFlag 8 (SetBitFlag 8 0x81 0x80 false) 0x18 true.
Proof.
  apply (SetBitFlag_disjoint_commute 8 0x81 0x18 0x80 true false);
    unfold in_range; try lia. reflexivity.
Defined.

(** The two tests differ on the empty flag set: [BitFlagsTest] holds of it
    for every mask and [BitFlagTest] of none.  For a nonempty flag set, all
    bits set implies some bit set. *)
Theorem flag_tests_on_empty_and_nonempty mask flags :
  BitFlagsTest mask 0 = true /\ BitFlagTest mask 0 = false
  /\ (flags <> 0 -> BitFlagsTest mask flags = true -> BitFlagTest mask flags = true).
Proof.
  unfold BitFlagsTest, BitFlagTest. rewrite Z.land_0_r.
  split; [reflexivity |]. split; [reflexivity |].
  intros Hne Hall. apply Z.eqb_eq in Hall. rewrite Hall.
  apply negb_true_iff, Z.eqb_neq. exact Hne.
Qed.

(** ** GetNextBit across the four bodies *)

Lemma GetNextBit_pos undefined_scan fuel target index p :
  Zpos p < 2 ^ 32 -> (32 <= fuel)%nat ->
  GetNextBit undefined_scan fuel target index (Zpos p) = Some (true, ctz_pos p).
Proof.
  intros Hhi Hfuel.
  pose proof (ctz_pos_bound p 32 ltac:(lia) Hhi) as Hb.
  pose proof (ctz_pos_nonneg p) as Hnn.
  destruct target; try reflexivity.
  unfold GetNextBit.
  change (negb (Z.pos p =? 0)) with true. cbv iota.
  rewrite scan_loop_pos by lia.
  pose proof (shiftr_ctz_nonzero p) as Hnz.
  destruct (Z.eqb_spec (Z.shiftr (Z.pos p) (ctz_pos p)) 0) as [Heq | _];
    [contradiction | reflexivity].
Qed.

(** On a nonzero mask the four bodies of [GetNextBit] agree, whatever
    [*pIndex] held before and whatever the intrinsics leave for zero. *)
Theorem GetNextBit_same_on_every_target u1 u2 fuel t1 t2 index1 index2 mask :
  in_range 32 mask -> mask <> 0 -> (32 <= fuel)%nat ->
  GetNextBit u1 fuel t1 index1 mask = GetNextBit u2 fuel t2 index2 mask.
Proof.
  intros [Hlo Hhi] Hne Hfuel. destruct mask as [| p | p]; [congruence | | lia].
  rewrite !GetNextBit_pos by assumption. reflexivity.
Qed.

Lemma GetNextBit_same_on_every_target_witness :
  GetNextBit (fun i => i) 32 Win32_IX86 0 0x28
  = GetNextBit (fun _ => 77) 32 Portable 9 0x28.
Proof.
  apply (GetNextBit_same_on_every_target (fun i => i) (fun _ => 77) 32
           Win32_IX86 Portable 0 9 0x28); [unfold in_range; lia | lia | lia].
Defined.

Lemma mask_out_bits mask i n :
  in_range 32 mask -> 0 <= i < 32 -> 0 <= n ->
  Z.testbit (mask_out mask i) n = Z.testbit mask n && negb (n =? i).
Proof.
  intros Hmask Hi Hn. unfold mask_out.
  rewrite Z.land_spec, wrap_bits by lia.
  destruct (Z.ltb_spec n 32).
  - rewrite Z.lnot_spec, wrap_bits by lia.
    rewrite Z.shiftl_1_l, Z.pow2_bits_eqb by lia.
    replace (n <? 32) with true by (symmetry; apply Z.ltb_lt; lia).
    rewrite (Z.eqb_sym i n). reflexivity.
  - rewrite (in_range_testbit_high 32 mask n) by (auto; lia). reflexivity.
Qed.

(** Masking out the bit [GetNextBit] reported gives a strictly smaller mask
    that differs in that bit only, and the next bit reported, if any, has a
    larger index: a loop that masks out each found bit visits the set bits
    in increasing order and ends. *)
Theorem GetNextBit_then_mask_out undefined_scan fuel target index mask i :
  in_range 32 mask -> (32 <= fuel)%nat ->
  GetNextBit undefined_scan fuel target index mask = Some (true, i) ->
  in_range 32 (mask_out mask i)
  /\ mask_out mask i < mask
  /\ (forall n, 0 <= n ->
        Z.testbit (mask_out mask i) n = Z.testbit mask n && negb (n =? i))
  /\ (forall j, GetNextBit undefined_scan fuel target i (mask_out mask i)
                = Some (true, j) -> i < j).
Proof.
  intros Hmask Hfuel Hget.
  pose proof Hmask as [Hlo Hhi].
  destruct mask as [| p | p]; [| | lia].
  { destruct target; simpl in Hget; discriminate. }
  rewrite GetNextBit_pos in Hget by assumption.
  injection Hget as <-.
  pose proof (ctz_pos_bound p 32 ltac:(lia) Hhi) as Hb.
  destruct (ctz_pos_lowest p) as (Hnn & Hset & Hclr).
  set (i := ctz_pos p) in *.
  assert (Hi : 0 <= i < 32) by lia.
  assert (Hbits : forall n, 0 <= n ->
            Z.testbit (mask_out (Z.pos p) i) n = Z.testbit (Z.pos p) n && negb (n =? i))
    by (intros; apply mask_out_bits; auto).
  assert (Hsub : mask_out (Z.pos p) i = Z.pos p - 2 ^ i).
  { rewrite Z.sub_nocarry_ldiff.
    - apply Z.bits_inj'. intros n Hn.
      rewrite Hbits, Z.ldiff_spec, Z.pow2_bits_eqb by lia.
      rewrite (Z.eqb_sym i n). reflexivity.
    - apply Z.bits_inj'. intros n Hn.
      rewrite Z.ldiff_spec, Z.pow2_bits_eqb, Z.bits_0 by lia.
      destruct (Z.eqb_spec i n) as [<- | _]; [rewrite Hset |]; reflexivity. }
  assert (Hpow : 0 < 2 ^ i) by (apply Z.pow_pos_nonneg; lia).
  assert (Hnonneg : 0 <= mask_out (Z.pos p) i).
  { unfold mask_out. apply Z.land_nonneg. left. lia. }
  split; [unfold in_range; lia |].
  split; [lia |].
  split; [exact Hbits |].
  intros j Hj.
  destruct (mask_out (Z.pos p) i) as [| q | q] eqn:Eq; [| | lia].
  { destruct target; simpl in Hj; discriminate. }
  rewrite GetNextBit_pos in Hj by (assumption || lia).
  injection Hj as <-.
  destruct (ctz_pos_lowest q) as (Hqnn & Hqset & _).
  rewrite Hbits in Hqset by exact Hqnn.
  apply andb_true_iff in Hqset as [Hin Hne].
  apply negb_true_iff, Z.eqb_neq in Hne.
  destruct (Z.lt_ge_cases (ctz_pos q) i) as [Hlt | Hge]; [| lia].
  rewrite Hclr in Hin by lia. discriminate.
Qed.

Lemma GetNextBit_then_mask_out_witness :
  in_range 32 (mask_out 0x28 3)
  /\ mask_out 0x28 3 < 0x28
  /\ (forall n, 0 <= n ->
        Z.testbit (mask_out 0x28 3) n = Z.testbit 0x28 n && negb (n =? 3))
  /\ (forall j, GetNextBit (fun i => i) 32 Portable 3 (mask_out 0x28 3)
                = Some (true, j) -> 3 < j).
Proof.
  apply (GetNextBit_then_mask_out (fun i => i) 32 Portable 0 0x28 3);
    [unfold in_range; lia | lia | reflexivity].
Defined.

End FlagsFacts.

(* ===================================================================== *)
(** * More properties of API/Game.h *)
(* ===================================================================== *)

Module GameOpsFacts.
Import GameOps.

Lemma int32_small z : - 2 ^ 31 <= z < 2 ^ 31 -> int32 z = z.
Proof. intros Hz. unfold int32. rewrite Z.mod_small; lia. Qed.

Lemma zrange_nil a b : b < a -> zrange a b = [].
Proof.
  intros Hlt. unfold zrange. replace (Z.to_nat (b + 1 - a)) with O by lia.
  reflexivity.
Qed.

Lemma zrange_cons a b : a <= b -> zrange a b = a :: zrange (a + 1) b.
Proof.
  intros Hle. unfold zrange.
  replace (Z.to_nat (b + 1 - a)) with (S (Z.to_nat (b + 1 - (a + 1)))) by lia.
  simpl. rewrite Z.add_0_r. f_equal.
  rewrite <- List.seq_shift, List.map_map.
  apply List.map_ext. intros i. lia.
Qed.

Lemma zrange_length a b : length (zrange a b) = Z.to_nat (b + 1 - a).
Proof. unfold zrange. rewrite List.length_map, List.length_seq. reflexivity. Qed.

(** A message addressed to a player other than the local one is dropped:
    [AddMessage] reads the local player and, unless the addressee is that
    player, makes no further access; when it is, the message goes to the
    log with the pixel coordinates, text and sound given. *)
Theorem AddMessage_only_for_local_player (AllPlayers : Z) (H : Model) (s : state H)
    (msg : string) (soundID toPlayerNum pixelX pixelY : Z) :
  toPlayerNum <> AllPlayers ->
  exists rI rL rest,
    trace (run H (AddMessage AllPlayers msg soundID toPlayerNum pixelX pixelY) s)
    = mkEvent (Extern "GameImpl::GetInstance" []) rI
      :: mkEvent (Extern "GameImpl::localPlayer_" [VInt (ret rI)]) rL
      :: rest
    /\ (toPlayerNum <> ret rL -> rest = [])
    /\ (toPlayerNum = ret rL ->
        exists rM,
          List.map access rest
          = [Extern "MessageLog::GetInstance" [];
             Extern "MessageLog::AddMessage"
               [VInt rM; VInt pixelX; VInt pixelY; VStr msg; VInt soundID]]).
Proof.
  intros Hne. unfold AddMessage, LocalPlayer, GetImpl, extern.
  destruct (Z.eqb_spec toPlayerNum AllPlayers) as [| _]; [contradiction |].
  simpl. do 2 host_step.
  destruct (Z.eqb_spec toPlayerNum (ret r0)) as [Heq | Hneq]; simpl.
  - do 2 host_step. eexists _, _, _. split; [reflexivity |].
    split; [intros; contradiction |]. intros _. eexists. reflexivity.
  - eexists _, _, _. split; [reflexivity |].
    split; [reflexivity | intros; contradiction].
Qed.

Lemma AddMessage_only_for_local_player_witness :
  exists rI rL rest,
    trace (run counting_host (AddMessage (-1) "hello" 0 2 10 20) 0%nat)
    = mkEvent (Extern "GameImpl::GetInstance" []) rI
      :: mkEvent (Extern "GameImpl::localPlayer_" [VInt (ret rI)]) rL
      :: rest
    /\ (2 <> ret rL -> rest = [])
    /\ (2 = ret rL ->
        exists rM,
          List.map access rest
          = [Extern "MessageLog::GetInstance" [];
             Extern "MessageLog::AddMessage"
               [VInt rM; VInt 10; VInt 20; VStr "hello"; VInt 0]]).
Proof.
  apply (AddMessage_only_for_local_player (-1) counting_host 0%nat "hello" 0 2 10 20).
  lia.
Defined.

(** A message addressed to all players is logged without the local player
    being read. *)
Example AddMessage_to_all :
  List.map access (trace (run counting_host (AddMessage (-1) "hello" 0 (-1) 10 20) 0%nat))
  = [Extern "MessageLog::GetInstance" [];
     Extern "MessageLog::AddMessage" [VInt 1; VInt 10; VInt 20; VStr "hello"; VInt 0]].
Proof. reflexivity. Qed.

(** The player mask [AddGameSound] hands to the sound manager is a 32-bit
    value: for a player number in 0..31 it has that one bit set, and for -1
    all 32 bits. *)
Theorem AddGameSound_mask (H : Model) (s : state H) (soundID toPlayerNum : Z) :
  -1 <= toPlayerNum < 32 ->
  exists rM mask,
    List.map access (trace (run H (AddGameSound soundID toPlayerNum) s))
    = [Extern "SoundManager::GetInstance" [];
       Extern "SoundManager::AddGameSound" [VInt rM; VInt soundID; VInt mask]]
    /\ Util.in_range 32 mask
    /\ (forall k, 0 <= k < 32 ->
          Z.testbit mask k = (toPlayerNum =? -1) || (k =? toPlayerNum)).
Proof.
  intros Hn. unfold AddGameSound, extern. simpl. do 2 host_step.
  eexists _, _. split; [reflexivity |]. split.
  - unfold sound_mask, Util.in_range, Util.wrap.
    destruct (toPlayerNum =? -1); apply Z.mod_pos_bound; lia.
  - intros k Hk. unfold sound_mask.
    destruct (Z.eqb_spec toPlayerNum (-1)) as [-> | Hne]; simpl.
    + rewrite UtilFacts.wrap_bits by lia.
      replace (k <? 32) with true by (symmetry; apply Z.ltb_lt; lia).
      apply Z.bits_m1. lia.
    + rewrite UtilFacts.wrap_bits by lia.
      replace (k <? 32) with true by (symmetry; apply Z.ltb_lt; lia).
      rewrite Z.shiftl_1_l, Z.pow2_bits_eqb by lia.
      rewrite (Z.eqb_sym toPlayerNum k). reflexivity.
Qed.

Lemma AddGameSound_mask_witness :
  exists rM mask,
    List.map access (trace (run counting_host (AddGameSound 5 3) 0%nat))
    = [Extern "SoundManager::GetInstance" [];
       Extern "SoundManager::AddGameSound" [VInt rM; VInt 5; VInt mask]]
    /\ Util.in_range 32 mask
    /\ (forall k, 0 <= k < 32 -> Z.testbit mask k = (3 =? -1) || (k =? 3)).
Proof.
  apply (AddGameSound_mask counting_host 0%nat 5 3). lia.
Defined.

(** ** The block form of CreateWall *)

Lemma run_CreateWall (H : Model) (s : state H) (type : Z) (location : Location) :
  List.map access (trace (run H (CreateWall type location) s))
  = [wall_access type (y location) (x location)].
Proof. unfold CreateWall, thunk. simpl. host_step. reflexivity. Qed.

Lemma CreateWall_row_S (fuel : nat) (type y_ x_ x2_ : Z) :
  CreateWall_row (S fuel) type y_ x_ x2_
  = if x_ <=? x2_
    then CreateWall type (mkLocation x_ y_)
         ≫= (fun _ => CreateWall_row fuel type y_ (int32 (x_ + 1)) x2_)
    else mret (Some tt).
Proof. reflexivity. Qed.

Lemma CreateWall_rows_S (fuel inner : nat) (type : Z) (area : MapRect) (y_ : Z) :
  CreateWall_rows (S fuel) inner type area y_
  = if y_ <=? y2 area
    then CreateWall_row inner type y_ (x1 area) (x2 area)
         ≫= (fun row => match row with
                        | Some _ => CreateWall_rows fuel inner type area (int32 (y_ + 1))
                        | None => mret None
                        end)
    else mret (Some tt).
Proof. reflexivity. Qed.

Lemma CreateWall_row_spec (H : Model) (type y_ x2_ : Z) :
  x2_ < 2 ^ 31 - 1 ->
  forall fuel x_ (s : state H),
    - 2 ^ 31 <= x_ -> (Z.to_nat (x2_ + 1 - x_) < fuel)%nat ->
    let o := run H (CreateWall_row fuel type y_ x_ x2_) s in
    value o = Some tt
    /\ List.map access (trace o) = List.map (wall_access type y_) (zrange x_ x2_).
Proof.
  intros Hmax. induction fuel as [| fuel IH]; intros x_ s Hlo Hfuel; [lia |].
  cbn zeta. rewrite CreateWall_row_S.
  destruct (Z.leb_spec x_ x2_) as [Hle | Hgt].
  - rewrite HostFacts.run_bind. cbn zeta. cbn [value trace].
    rewrite int32_small by lia.
    destruct (IH (x_ + 1)
                (final (run H (CreateWall type (mkLocation x_ y_)) s))
                ltac:(lia) ltac:(lia)) as [Hv Ht].
    split; [exact Hv |].
    rewrite List.map_app, Ht, run_CreateWall, (zrange_cons x_ x2_ Hle).
    reflexivity.
  - rewrite zrange_nil by lia. split; reflexivity.
Qed.

Lemma CreateWall_rows_spec (H : Model) (type : Z) (area : MapRect) (inner : nat) :
  - 2 ^ 31 <= x1 area -> x2 area < 2 ^ 31 - 1 -> y2 area < 2 ^ 31 - 1 ->
  (Z.to_nat (x2 area + 1 - x1 area) < inner)%nat ->
  forall fuel y_ (s : state H),
    - 2 ^ 31 <= y_ -> (Z.to_nat (y2 area + 1 - y_) < fuel)%nat ->
    let o := run H (CreateWall_rows fuel inner type area y_) s in
    value o = Some tt
    /\ List.map access (trace o)
       = List.flat_map
           (fun y_ => List.map (wall_access type y_) (zrange (x1 area) (x2 area)))
           (zrange y_ (y2 area)).
Proof.
  intros Hx1 Hx2 Hy2 Hinner.
  induction fuel as [| fuel IH]; intros y_ s Hlo Hfuel; [lia |].
  cbn zeta. rewrite CreateWall_rows_S.
  destruct (Z.leb_spec y_ (y2 area)) as [Hle | Hgt].
  - rewrite HostFacts.run_bind. cbn zeta.
    destruct (CreateWall_row_spec H type y_ (x2 area) Hx2 inner (x1 area) s Hx1 Hinner)
      as [Hv Ht].
    rewrite Hv. cbn [value trace].
    rewrite int32_small by lia.
    destruct (IH (y_ + 1)
                (final (run H (CreateWall_row inner type y_ (x1 area) (x2 area)) s))
                ltac:(lia) ltac:(lia)) as [Hv' Ht'].
    split; [exact Hv' |].
    rewrite List.map_app, Ht, Ht', (zrange_cons y_ (y2 area) Hle).
    reflexivity.
  - rewrite (zrange_nil y_ (y2 area)) by lia. split; reflexivity.
Qed.

(** [CreateWall(type, area)] terminates and calls the wall thunk exactly once
    for every tile of the rectangle, bounds included, row by row from
    [(x1, y1)]; an empty rectangle ([x2 < x1] or [y2 < y1]) makes no call. *)
Theorem CreateWall_area_covers (H : Model) (s : state H) (type : Z)
    (area : MapRect) (fuel : nat) :
  - 2 ^ 31 <= x1 area -> x2 area < 2 ^ 31 - 1 ->
  - 2 ^ 31 <= y1 area -> y2 area < 2 ^ 31 - 1 ->
  (Z.to_nat (x2 area + 1 - x1 area) < fuel)%nat ->
  (Z.to_nat (y2 area + 1 - y1 area) < fuel)%nat ->
  let o := run H (CreateWall_area fuel type area) s in
  value o = Some tt
  /\ List.map access (trace o) = spec_wall_accesses type area
  /\ length (trace o)
     = (Z.to_nat (x2 area + 1 - x1 area) * Z.to_nat (y2 area + 1 - y1 area))%nat.
Proof.
  intros Hx1 Hx2 Hy1 Hy2 Hfx Hfy. cbn zeta. unfold CreateWall_area.
  destruct (CreateWall_rows_spec H type area fuel Hx1 Hx2 Hy2 Hfx fuel (y1 area) s
              Hy1 Hfy) as [Hv Ht].
  split; [exact Hv |]. split; [exact Ht |].
  rewrite <- (List.length_map access), Ht.
  assert (Hlen : forall rows,
            length (List.flat_map
                      (fun y_ => List.map (wall_access type y_)
                                   (zrange (x1 area) (x2 area))) rows)
            = (Z.to_nat (x2 area + 1 - x1 area) * length rows)%nat).
  { induction rows as [| r rows IH]; simpl; [lia |].
    rewrite List.length_app, List.length_map, zrange_length, IH. lia. }
  unfold spec_wall_accesses. rewrite Hlen, zrange_length. reflexivity.
Qed.

Lemma CreateWall_area_covers_witness :
  let o := run counting_host (CreateWall_area 4 7 (mkMapRect 1 1 3 2)) 0%nat in
  value o = Some tt
  /\ List.map access (trace o) = spec_wall_accesses 7 (mkMapRect 1 1 3 2)
  /\ length (trace o) = (Z.to_nat (3 + 1 - 1) * Z.to_nat (2 + 1 - 1))%nat.
Proof.
  apply (CreateWall_area_covers counting_host 0%nat 7 (mkMapRect 1 1 3 2) 4);
    simpl; lia.
Defined.

Example CreateWall_area_order :
  List.map access (trace (run counting_host (CreateWall_area 4 7 (mkMapRect 1 1 2 2)) 0%nat))
  = [wall_access 7 1 1; wall_access 7 1 2; wall_access 7 2 1; wall_access 7 2 2]
  /\ trace (run counting_host (CreateWall_area 4 7 (mkMapRect 3 1 2 5)) 0%nat) = [].
Proof. split; reflexivity. Qed.

(** With a negative spread speed [CreateBlight] leaves the Blight manager
    alone: its only access is the call at 0x476EA0 for the tile, with the
    flag set. *)
Theorem CreateBlight_keeps_speed (H : Model) (s : state H) (where_ : Location)
    (spreadSpeed : Z) :
  spreadSpeed < 0 ->
  only_access H s (CreateBlight where_ spreadSpeed)
    (OP2Thunk 0x476EA0 [VLoc where_; VInt 1]).
Proof.
  intros Hneg. unfold only_access, CreateBlight.
  destruct (Z.geb_spec spreadSpeed 0) as [| _]; [lia |].
  simpl. host_step. reflexivity.
Qed.

Lemma CreateBlight_keeps_speed_witness :
  only_access counting_host 0%nat (CreateBlight (mkLocation 4 5) (-1))
    (OP2Thunk 0x476EA0 [VLoc (mkLocation 4 5); VInt 1]).
Proof.
  apply (CreateBlight_keeps_speed counting_host 0%nat (mkLocation 4 5) (-1)). lia.
Defined.

(** With a spread speed of zero or more the speed is set first, then the
    tile is blighted. *)
Theorem CreateBlight_sets_speed_first (H : Model) (s : state H) (where_ : Location)
    (spreadSpeed : Z) :
  0 <= spreadSpeed ->
  exists mgr,
    List.map access (trace (run H (CreateBlight where_ spreadSpeed) s))
    = [Extern "BlightManager::GetInstance" [];
       Extern "BlightManager::SetSpreadSpeed" [VInt mgr; VInt spreadSpeed];
       OP2Thunk 0x476EA0 [VLoc where_; VInt 1]].
Proof.
  intros Hpos. unfold CreateBlight, SetBlightSpeed, extern.
  destruct (Z.geb_spec spreadSpeed 0) as [_ |]; [| lia].
  simpl. do 3 host_step. eexists. reflexivity.
Qed.

Lemma CreateBlight_sets_speed_first_witness :
  exists mgr,
    List.map access (trace (run counting_host (CreateBlight (mkLocation 4 5) 0) 0%nat))
    = [Extern "BlightManager::GetInstance" [];
       Extern "BlightManager::SetSpreadSpeed" [VInt mgr; VInt 0];
       OP2Thunk 0x476EA0 [VLoc (mkLocation 4 5); VInt 1]].
Proof.
  apply (CreateBlight_sets_speed_first counting_host 0%nat (mkLocation 4 5) 0). lia.
Defined.

(** ** Disasters *)

Lemma run_DisasterThunk (Unit_of_pointer : Z -> Unit) (H : Model) (s : state H)
    (Address : Z) (immediate : bool) (args : list Val) :
  let o := run H (DisasterThunk Unit_of_pointer Address immediate args) s in
  exists r rest,
    trace o = mkEvent (OP2Thunk Address args) r :: rest
    /\ value o = Unit_of_pointer (ret r)
    /\ List.map access rest
       = if negb (ret r =? 0) && immediate
         then [Extern "Disaster::StartDisaster" [VInt (ret r)]]
         else [].
Proof.
  cbn zeta. unfold DisasterThunk, thunk, extern. simpl. host_step.
  destruct (negb (ret r =? 0) && immediate) eqn:Hc; simpl.
  - host_step. eexists _, _. rewrite Hc. repeat split; reflexivity.
  - eexists _, _. rewrite Hc. repeat split; reflexivity.
Qed.



(** [CreateTornado] and [CreateEMPMissile] never start the disaster
    themselves, whatever the host returns: each makes one call, and the
    tornado hands its [immediate] flag to the host as the last argument. *)
Theorem tornado_and_missile_leave_start_to_host (Unit_of_pointer : Z -> Unit)
    (H : Model) (s : state H) (a b : Location) (n : Z) (immediate : bool) :
  only_access H s (CreateTornado Unit_of_pointer a b n immediate)
    (OP2Thunk 0x478350 [VInt (x a); VInt (y a); VInt n; VInt (x b); VInt (y b);
                        VInt (ibool_of immediate)])
  /\ only_access H s (CreateEMPMissile Unit_of_pointer a b n)
    (OP2Thunk 0x478420 [VInt (x b); VInt (y b); VInt n; VInt (x a); VInt (y a)]).
Proof.
  unfold only_access, CreateTornado, CreateEMPMissile.
  split.
  - destruct (run_DisasterThunk Unit_of_pointer H s 0x478350 false
                [VInt (x a); VInt (y a); VInt n; VInt (x b); VInt (y b);
                 VInt (ibool_of immediate)]) as (r & rest & -> & _ & Hrest).
    rewrite andb_false_r in Hrest. simpl. rewrite Hrest. reflexivity.
  - destruct (run_DisasterThunk Unit_of_pointer H s 0x478420 false
                [VInt (x b); VInt (y b); VInt n; VInt (x a); VInt (y a)])
      as (r & rest & -> & _ & Hrest).
    rewrite andb_false_r in Hrest. simpl. rewrite Hrest. reflexivity.
Qed.

End GameOpsFacts.

Module GameFlagsFacts.
Import GameFlags.

Lemma set_players_spec (MaxPlayers : nat) (v : bool) :
  forall (fuel i : nat) (players : list bool),
    (i <= MaxPlayers)%nat -> (MaxPlayers - i < fuel)%nat ->
    (MaxPlayers <= length players)%nat ->
    exists players',
      set_players MaxPlayers fuel i v players = Some players'
      /\ length players' = length players
      /\ (forall j : nat,
            players' !! j
            = if (i <=? j)%nat && (j <? MaxPlayers)%nat then Some v
              else players !! j).
Proof.
  induction fuel as [| fuel IH]; intros i players Hi Hfuel Hlen; [lia |].
  simpl. destruct (Nat.ltb_spec i MaxPlayers) as [Hlt | Hge].
  - destruct (IH (S i) (<[i := v]> players)) as (players' & Hrun & Hl & Hlook);
      [lia | lia | rewrite length_insert; lia |].
    exists players'. split; [exact Hrun |].
    split; [rewrite Hl; apply length_insert |].
    intros j. rewrite Hlook.
    destruct (Nat.eq_dec i j) as [<- | Hne].
    + replace (S i <=? i)%nat with false by (symmetry; apply Nat.leb_gt; lia).
      rewrite Nat.leb_refl.
      replace (i <? MaxPlayers)%nat with true by (symmetry; apply Nat.ltb_lt; lia).
      simpl. apply list_lookup_insert_eq. lia.
    + rewrite list_lookup_insert_ne by exact Hne.
      destruct (Nat.leb_spec (S i) j), (Nat.leb_spec i j); try lia; reflexivity.
  - exists players. split; [reflexivity |]. split; [reflexivity |].
    intros j.
    destruct (Nat.leb_spec i j), (Nat.ltb_spec j MaxPlayers); try reflexivity; lia.
Qed.

(** [SetForceRCCPathFinding] terminates and never leaves both force flags
    set: enable is set exactly for [On], disable exactly for [Off].  For
    [Default] no player is touched; otherwise the first [MaxPlayers] players
    get [rccOperational_] set for [On] and cleared for [Off], and no other
    entry changes. *)
Theorem SetForceRCCPathFinding_spec (MaxPlayers fuel : nat) (state : ToggleState)
    (g : GameImpl) :
  (MaxPlayers <= length (rccOperational_ g))%nat -> (MaxPlayers < fuel)%nat ->
  exists g',
    SetForceRCCPathFinding MaxPlayers fuel state g = Some g'
    /\ forceEnableRCC_ g' = ToggleState_eqb state On
    /\ forceDisableRCC_ g' = ToggleState_eqb state Off
    /\ forceEnableRCC_ g' && forceDisableRCC_ g' = false
    /\ length (rccOperational_ g') = length (rccOperational_ g)
    /\ (forall j : nat,
          rccOperational_ g' !! j
          = if negb (ToggleState_eqb state Default) && (j <? MaxPlayers)%nat
            then Some (ToggleState_eqb state On)
            else rccOperational_ g !! j).
Proof.
  intros Hlen Hfuel. unfold SetForceRCCPathFinding. cbn [rccOperational_
    forceEnableRCC_ forceDisableRCC_].
  destruct (ToggleState_eqb state Default) eqn:Hd; cbn [negb].
  - eexists. split; [reflexivity |]. cbn.
    destruct state; try discriminate. repeat split; reflexivity.
  - destruct (set_players_spec MaxPlayers (ToggleState_eqb state On) fuel 0
                (rccOperational_ g)) as (players' & -> & Hl & Hlook);
      [lia | lia | exact Hlen |].
    eexists. split; [reflexivity |]. cbn.
    repeat split; try exact Hl.
    + destruct state; reflexivity.
    + intros j. rewrite Hlook. reflexivity.
Qed.

Lemma SetForceRCCPathFinding_spec_witness :
  exists g',
    SetForceRCCPathFinding 2 3 Off (mkGameImpl true false [true; true; true]) = Some g'
    /\ forceEnableRCC_ g' = false
    /\ forceDisableRCC_ g' = true
    /\ forceEnableRCC_ g' && forceDisableRCC_ g' = false
    /\ length (rccOperational_ g') = 3%nat
    /\ (forall j : nat,
          rccOperational_ g' !! j
          = if negb (ToggleState_eqb Off Default) && (j <? 2)%nat
            then Some false
            else [true; true; true] !! j).
Proof.
  apply (SetForceRCCPathFinding_spec 2 3 Off (mkGameImpl true false [true; true; true]));
    simpl; lia.
Defined.

Example SetForceRCCPathFinding_values :
  SetForceRCCPathFinding 2 3 Off (mkGameImpl true false [true; true; true])
  = Some (mkGameImpl false true [false; false; true])
  /\ SetForceRCCPathFinding 2 3 Default (mkGameImpl true false [true; false; true])
  = Some (mkGameImpl false false [true; false; true]).
Proof. split; reflexivity. Qed.

End GameFlagsFacts.

(* ===================================================================== *)
(** * More properties of API/GameMap.h *)
(* ===================================================================== *)

Module MapCoordsFacts.
Import MapCoords GameOpsFacts.

Lemma land_bounds a b : 0 <= b -> 0 <= Z.land a b <= b.
Proof.
  intros Hb. split; [apply Z.land_nonneg; right; exact Hb |].
  assert (Hsub : b - Z.ldiff b a = Z.land a b).
  { rewrite Z.sub_nocarry_ldiff.
    - apply Z.bits_inj'. intros n Hn.
      rewrite Z.ldiff_spec, Z.ldiff_spec, Z.land_spec.
      destruct (Z.testbit a n), (Z.testbit b n); reflexivity.
    - apply Z.bits_inj'. intros n Hn.
      rewrite Z.ldiff_spec, Z.ldiff_spec, Z.bits_0.
      destruct (Z.testbit a n), (Z.testbit b n); reflexivity. }
  assert (0 <= Z.ldiff b a) by (apply Z.ldiff_nonneg; left; exact Hb).
  lia.
Qed.

(** Whatever coordinates it is given, [At] returns a tile of the map: its
    [x] lies in [0 .. tileXMask_] and its [y] in [0 .. height - 1]. *)
Theorem At_in_bounds (impl : MapImpl) (x_ y_ : Z) :
  0 <= tileXMask_ impl -> 1 <= tileHeight_ impl < 2 ^ 31 ->
  0 <= x (At impl x_ y_) <= tileXMask_ impl
  /\ 0 <= y (At impl x_ y_) < GetHeight impl.
Proof.
  intros Hmask Hheight. unfold At, GetHeight. cbn [x y].
  split; [apply land_bounds; exact Hmask |].
  rewrite (int32_small (tileHeight_ impl - 1)) by lia.
  pose proof (land_bounds (int32 (y_ - 1)) (tileHeight_ impl - 1) ltac:(lia)).
  lia.
Qed.

Lemma At_in_bounds_witness :
  0 <= x (At (mkMapImpl 32 128 64 127) (-5) 1000) <= 127
  /\ 0 <= y (At (mkMapImpl 32 128 64 127) (-5) 1000) < 64.
Proof.
  apply (At_in_bounds (mkMapImpl 32 128 64 127) (-5) 1000); simpl; lia.
Defined.

(** When the mask is [2^j - 1] and the height [2^k], [At] turns the one-based
    coordinates of the status bar into zero-based map coordinates, shifted by
    the padding and wrapped around the map; inside the map they are
    [x - 1 + padding] and [y - 1]. *)
Theorem At_wraps (impl : MapImpl) (x_ y_ j k : Z) :
  0 <= j -> tileXMask_ impl = 2 ^ j - 1 ->
  0 <= k < 31 -> tileHeight_ impl = 2 ^ k ->
  - 2 ^ 31 <= x_ - 1 < 2 ^ 31 ->
  - 2 ^ 31 <= x_ - 1 + paddingOffsetTileX_ impl < 2 ^ 31 ->
  - 2 ^ 31 <= y_ - 1 < 2 ^ 31 ->
  At impl x_ y_
  = mkLocation ((x_ - 1 + paddingOffsetTileX_ impl) mod 2 ^ j) ((y_ - 1) mod 2 ^ k)
  /\ (0 <= x_ - 1 + paddingOffsetTileX_ impl <= tileXMask_ impl ->
      x (At impl x_ y_) = x_ - 1 + paddingOffsetTileX_ impl)
  /\ (1 <= y_ <= tileHeight_ impl -> y (At impl x_ y_) = y_ - 1).
Proof.
  intros Hj Hmask Hk Hheight Hx Hxp Hy.
  assert (Hpow : 2 ^ k < 2 ^ 31) by (apply Z.pow_lt_mono_r; lia).
  assert (Hpos : 0 < 2 ^ k) by (apply Z.pow_pos_nonneg; lia).
  assert (Heq : At impl x_ y_
                = mkLocation ((x_ - 1 + paddingOffsetTileX_ impl) mod 2 ^ j)
                             ((y_ - 1) mod 2 ^ k)).
  { unfold At, GetPaddingWidth, GetHeight.
    rewrite Hmask, Hheight.
    rewrite (int32_small (x_ - 1)), (int32_small (x_ - 1 + _)),
      (int32_small (y_ - 1)), (int32_small (2 ^ k - 1)) by lia.
    replace (2 ^ j - 1) with (Z.ones j) by (rewrite Z.ones_equiv; lia).
    replace (2 ^ k - 1) with (Z.ones k) by (rewrite Z.ones_equiv; lia).
    rewrite !Z.land_ones by lia. reflexivity. }
  split; [exact Heq |]. rewrite Heq. cbn [x y]. split.
  - intros Hin. apply Z.mod_small. lia.
  - intros Hin. apply Z.mod_small. lia.
Qed.

Lemma At_wraps_witness :
  At (mkMapImpl 32 128 64 127) 1 1 = mkLocation ((1 - 1 + 32) mod 2 ^ 7) ((1 - 1) mod 2 ^ 6)
  /\ (0 <= 1 - 1 + 32 <= 127 -> x (At (mkMapImpl 32 128 64 127) 1 1) = 1 - 1 + 32)
  /\ (1 <= 1 <= 64 -> y (At (mkMapImpl 32 128 64 127) 1 1) = 1 - 1).
Proof.
  apply (At_wraps (mkMapImpl 32 128 64 127) 1 1 7 6); simpl; lia.
Defined.

(** Freezing a lava flow writes exactly the tiles its creation wrote, in the
    same order, for each of the three directions. *)
Theorem lava_freeze_hits_created_tiles (hdr : Headers) (H H' : Model)
    (s : state H) (s' : state H') (where_ : Location) :
  let tiles {R} (M : Model) (p : Prog R) (st : state M) :=
    List.map (fun e => first_arg (access e)) (trace (run M p st)) in
  tiles H (GameMap.CreateLavaFlowSW hdr where_) s
    = tiles H' (GameMap.FreezeLavaFlowSW hdr where_) s'
  /\ tiles H (GameMap.CreateLavaFlowS hdr where_) s
    = tiles H' (GameMap.FreezeLavaFlowS hdr where_) s'
  /\ tiles H (GameMap.CreateLavaFlowSE hdr where_) s
    = tiles H' (GameMap.FreezeLavaFlowSE hdr where_) s'.
Proof.
  cbn zeta.
  unfold GameMap.CreateLavaFlowSW, GameMap.FreezeLavaFlowSW,
    GameMap.CreateLavaFlowS, GameMap.FreezeLavaFlowS,
    GameMap.CreateLavaFlowSE, GameMap.FreezeLavaFlowSE,
    GameMap.SetLavaFlowHelper, GameMap.SetTile.
  simpl. repeat host_step. repeat split; reflexivity.
Qed.

End MapCoordsFacts.

(* ===================================================================== *)
(** * More properties of API/Enumerators.h *)
(* ===================================================================== *)

Module IteratorFacts.
Import Enumerators EnumeratorsFacts.

Lemma settled_rests_on_match (hdr : Headers) (m : Memory) (type p : Z)
    (l : list (Z * MapObject)) :
  chain m p l ->
  let q := first_ptr (settle hdr type l) in
  q = nullptr
  \/ exists o, objects m !! q = Some o /\ passes hdr type (q, o) = true.
Proof.
  intros Hc. cbn zeta.
  pose proof (chain_settle hdr m type l p Hc) as Hs.
  destruct (settle hdr type l) as [| [q o] rest] eqn:E.
  - left. reflexivity.
  - right. simpl in *. exists o.
    apply chain_inv in Hs as (_ & _ & Hlk & _ & _).
    split; [exact Hlk |].
    exact (settle_head_passes hdr type (q, o) rest l E).
Qed.

(** A filter iterator never rests on a unit of the wrong type: after its
    construction on a list, and after every [++], it is at the null pointer
    or at an object that passes the filter. *)
Theorem filter_iterator_rests_on_match (hdr : Headers) (m : Memory) (fuel : nat)
    (type p : Z) (o : MapObject) (l : list (Z * MapObject)) :
  chain m p ((p, o) :: l) -> (S (length l) < fuel)%nat ->
  let rests (it : Iterator) :=
    type_ it = type
    /\ (pMo_ it = nullptr
        \/ exists o', objects m !! pMo_ it = Some o'
                      /\ passes hdr type (pMo_ it, o') = true) in
  exists first next,
    FilterPlayerUnitIterator hdr fuel m p type = Some first
    /\ incr hdr fuel m (mkIterator p type) = Some next
    /\ rests first /\ rests next.
Proof.
  intros Hc Hfuel. cbn zeta.
  rewrite (FilterPlayerUnitIterator_spec hdr m fuel type p _ Hc) by (simpl; lia).
  rewrite (incr_spec hdr m fuel type p o l Hc) by lia.
  eexists _, _. split; [reflexivity |]. split; [reflexivity |].
  cbn [type_ pMo_]. split; (split; [reflexivity |]).
  - exact (settled_rests_on_match hdr m type p _ Hc).
  - apply chain_inv in Hc as (_ & _ & _ & _ & Hrest).
    exact (settled_rests_on_match hdr m type _ _ Hrest).
Qed.

Lemma filter_iterator_rests_on_match_witness :
  let rests (it : Iterator) :=
    type_ it = 9
    /\ (pMo_ it = nullptr
        \/ exists o', objects sample_memory !! pMo_ it = Some o'
                      /\ passes sample_headers 9 (pMo_ it, o') = true) in
  exists first next,
    FilterPlayerUnitIterator sample_headers 4 sample_memory 100 9 = Some first
    /\ incr sample_headers 4 sample_memory (mkIterator 100 9) = Some next
    /\ rests first /\ rests next.
Proof.
  apply (filter_iterator_rests_on_match sample_headers sample_memory 4 9 100
           (mkMapObject 200 5)
           [(200, mkMapObject 300 9); (300, mkMapObject 0 5)]).
  - repeat (constructor; [unfold nullptr; lia | vm_compute; reflexivity |]).
    constructor.
  - simpl. lia.
Defined.

Lemma do_while_on_cycle (m : Memory) (type p : Z) (o : MapObject) :
  p <> nullptr -> objects m !! p = Some o -> pPlayerNext_ o = p ->
  forall fuel,
    do_while fuel m type p
    = match fuel with
      | O => None
      | S _ => if typeID o =? type then Some p else None
      end.
Proof.
  intros Hne Hlk Hnext.
  assert (Hstep : PlayerUnitIterator_incr m p = Some p).
  { unfold PlayerUnitIterator_incr.
    destruct (Z.eqb_spec p nullptr) as [| _]; [contradiction |].
    simpl. rewrite Hlk. simpl. rewrite Hnext. reflexivity. }
  induction fuel as [| fuel IH]; [reflexivity |].
  cbn [do_while]. rewrite Hstep. cbn [mbind option_bind].
  destruct (Z.eqb_spec p nullptr) as [| _]; [contradiction |].
  cbn [negb]. rewrite Hlk. cbn [mbind option_bind].
  destruct (typeID o =? type) eqn:Et; cbn [negb]; [reflexivity |].
  rewrite IH. destruct fuel; rewrite ?Et; reflexivity.
Qed.

Lemma for_loop_on_cycle (hdr : Headers) (Unit_of_MapObject : Memory -> Z -> Unit)
    (m : Memory) (type p : Z) (o : MapObject) (inner : nat) :
  p <> nullptr -> objects m !! p = Some o -> pPlayerNext_ o = p ->
  forall fuel cache,
    for_loop hdr Unit_of_MapObject fuel inner (mkWorld m cache)
      (mkIterator p type) (mkIterator nullptr type) = None.
Proof.
  intros Hne Hlk Hnext.
  induction fuel as [| fuel IH]; intros cache; [reflexivity |].
  simpl. unfold neq. simpl.
  destruct (Z.eqb_spec p nullptr) as [| _]; [contradiction |]. simpl.
  unfold incr. simpl.
  destruct (type =? MapID_Any hdr).
  - unfold PlayerUnitIterator_incr.
    destruct (Z.eqb_spec p nullptr) as [| _]; [contradiction |].
    simpl. rewrite Hlk. simpl. rewrite Hnext, IH. reflexivity.
  - rewrite (do_while_on_cycle m type p o Hne Hlk Hnext).
    destruct inner; [reflexivity |].
    destruct (typeID o =? type); [| reflexivity].
    simpl. rewrite IH. reflexivity.
Qed.

(** The enumerators rely on the host's lists ending in the null pointer: on
    a list whose first object points back at itself the iteration does not
    end, whatever the filter and however much fuel it is given. *)
Theorem enumerate_on_cycle_never_ends (hdr : Headers)
    (Unit_of_MapObject : Memory -> Z -> Unit) (e : Enum) (playerNum type : Z)
    (m : Memory) (cache : list Unit) (o : MapObject) (fuel : nat) :
  let p := list_head e (GetPlayer m playerNum) in
  p <> nullptr -> objects m !! p = Some o -> pPlayerNext_ o = p ->
  enumerate hdr Unit_of_MapObject fuel e playerNum type (mkWorld m cache) = None.
Proof.
  cbn zeta. intros Hne Hlk Hnext.
  unfold enumerate, begin_, end_, FilterPlayerUnitIterator. cbn [mem].
  set (p := list_head e (GetPlayer m playerNum)) in *.
  destruct (Z.eqb_spec p nullptr) as [| _]; [contradiction |].
  change (nullptr =? nullptr) with true. cbn [negb andb].
  destruct (type =? MapID_Any hdr) eqn:EAny; cbn [negb].
  - cbn [mbind option_bind].
    apply (for_loop_on_cycle hdr Unit_of_MapObject m type p o fuel Hne Hlk Hnext).
  - rewrite Hlk. cbn [mbind option_bind].
    destruct (typeID o =? type) eqn:Et; cbn [negb].
    + cbn [mbind option_bind].
      apply (for_loop_on_cycle hdr Unit_of_MapObject m type p o fuel Hne Hlk Hnext).
    + unfold incr. cbn [type_ pMo_]. rewrite EAny.
      rewrite (do_while_on_cycle m type p o Hne Hlk Hnext).
      destruct fuel; [reflexivity |]. rewrite Et. reflexivity.
Qed.

Lemma enumerate_on_cycle_never_ends_witness :
  enumerate sample_headers (fun _ p => mkUnit p) 50 PlayerVehicleEnum 0 (-1)
    (mkWorld (mkMemory (<[100 := mkMapObject 100 5]> ∅)
                       (fun _ => mkPlayerImpl 100 0 0)) [])
  = None.
Proof.
  apply (enumerate_on_cycle_never_ends sample_headers (fun _ p => mkUnit p)
           PlayerVehicleEnum 0 (-1)
           (mkMemory (<[100 := mkMapObject 100 5]> ∅) (fun _ => mkPlayerImpl 100 0 0))
           [] (mkMapObject 100 5) 50).
  - simpl. unfold nullptr. lia.
  - vm_compute. reflexivity.
  - reflexivity.
Defined.

End IteratorFacts.

Module AreaEnumeratorsFacts.
Import AreaEnumerators.

Lemma area_for_loop_S (hdr : Headers) (fuel : nat) (e : Enum) (this : Z) (result_ : Unit) :
  for_loop hdr (S fuel) e this result_
  = if neq_end hdr result_
    then incr hdr e this
         ≫= (fun next =>
               for_loop hdr fuel e this next
               ≫= (fun rest => mret (match rest with
                                     | Some units => Some (result_ :: units)
                                     | None => None
                                     end)))
    else mret (Some []).
Proof. reflexivity. Qed.

(** [operator++] is one [GetNext] call on a null unit; the iterator then
    holds the unit that call stored, or the null unit when it stored none. *)
Lemma run_incr (hdr : Headers) (H : Model) (s : state H) (e : Enum) (this : Z) :
  exists r,
    trace (run H (incr hdr e this) s)
    = [mkEvent (Thunk (GetNext_addr e) this [VRef (Unit_null hdr)]) r]
    /\ value (run H (incr hdr e this) s)
       = match stored r with
         | Some id => mkUnit id
         | None => Game.Unit_default hdr
         end.
Proof.
  unfold incr, GetNext. simpl. host_step. exists r. split; reflexivity.
Qed.

Lemma area_for_loop_spec (hdr : Headers) (H : Model) (e : Enum) (this : Z) :
  forall fuel result_ (s : state H) units,
    value (run H (for_loop hdr fuel e this result_) s) = Some units ->
    Forall (fun u => id_ u <> Unit_null hdr) units
    /\ exists replies,
         trace (run H (for_loop hdr fuel e this result_) s)
         = List.map (mkEvent (Thunk (GetNext_addr e) this [VRef (Unit_null hdr)]))
             replies
         /\ result_
            :: List.map (fun r => match stored r with
                                  | Some id => mkUnit id
                                  | None => Game.Unit_default hdr
                                  end) replies
            = units ++ [Game.Unit_default hdr].
Proof.
  induction fuel as [| fuel IH]; intros result_ s units Hv;
    [change (None = Some units) in Hv; discriminate Hv |].
  rewrite area_for_loop_S in *.
  destruct (neq_end hdr result_) eqn:Hneq.
  - rewrite HostFacts.run_bind in *. cbn beta zeta in *. cbn [value trace final] in *.
    rewrite HostFacts.run_bind in *. cbn beta zeta in *. cbn [value trace final] in *.
    destruct (run_incr hdr H s e this) as (r & Ht & Hval).
    set (o1 := run H (incr hdr e this) s) in *.
    set (o2 := run H (for_loop hdr fuel e this (value o1)) (final o1)) in *.
    unfold mret, Prog_ret in Hv |- *. cbn [run value trace final] in Hv |- *.
    destruct (value o2) as [rest |] eqn:Hrest; [| discriminate Hv].
    injection Hv as <-.
    destruct (IH (value o1) (final o1) rest Hrest) as (Hall & replies & Htr & Hres).
    split.
    + constructor; [| exact Hall].
      unfold neq_end, Game.Unit_default in Hneq. simpl in Hneq.
      apply negb_true_iff, Z.eqb_neq in Hneq. exact Hneq.
    + exists (r :: replies). split.
      * fold o2 in Htr. rewrite Ht, Htr, app_nil_r. reflexivity.
      * simpl. rewrite <- Hval, Hres. reflexivity.
  - change (Some [] = Some units) in Hv. injection Hv as <-.
    split; [constructor |]. exists []. split; [reflexivity |].
    unfold neq_end, Game.Unit_default in Hneq. simpl in Hneq.
    apply negb_false_iff, Z.eqb_eq in Hneq.
    destruct result_ as [id]. simpl in Hneq. subst id. reflexivity.
Qed.

(** An area enumeration that ends calls the host constructor once and then
    only [GetNext], each time on a null unit.  The units it yields are, in
    order, the units those calls stored, up to the first call that leaves
    the unit null (by storing the null id or nothing), which is the last
    call made; so no yielded unit is null, and the flag [GetNext] returns
    plays no part. *)
Theorem area_enumerate_yields_live_units (hdr : Headers) (H : Model) (s : state H)
    (fuel : nat) (e : Enum) (this : Z) (units : list Unit) :
  let o := run H (enumerate hdr fuel e this) s in
  let constructor_call :=
    match e with
    | InRangeEnumerator centerPoint maxTileDistance =>
        Thunk 0x47A740 this [VLoc centerPoint; VInt maxTileDistance]
    | LocationEnumerator location => Thunk 0x47A6D0 this [VLoc location]
    end in
  let GetNext_call :=
    match e with
    | InRangeEnumerator _ _ => Thunk 0x47A780 this [VRef (Unit_null hdr)]
    | LocationEnumerator _ => Thunk 0x47A710 this [VRef (Unit_null hdr)]
    end in
  value o = Some units ->
  exists rC replies,
    trace o = mkEvent constructor_call rC :: List.map (mkEvent GetNext_call) replies
    /\ List.map (fun r => match stored r with
                          | Some id => mkUnit id
                          | None => mkUnit (Unit_null hdr)
                          end) replies
       = units ++ [mkUnit (Unit_null hdr)]
    /\ Forall (fun u => id_ u <> Unit_null hdr) units.
Proof.
  cbn zeta.
  replace (match e with
           | InRangeEnumerator centerPoint maxTileDistance =>
               Thunk 0x47A740 this [VLoc centerPoint; VInt maxTileDistance]
           | LocationEnumerator location => Thunk 0x47A6D0 this [VLoc location]
           end) with (Thunk (ctor_addr e) this (ctor_args e))
    by (destruct e; reflexivity).
  replace (match e with
           | InRangeEnumerator _ _ => Thunk 0x47A780 this [VRef (Unit_null hdr)]
           | LocationEnumerator _ => Thunk 0x47A710 this [VRef (Unit_null hdr)]
           end) with (Thunk (GetNext_addr e) this [VRef (Unit_null hdr)])
    by (destruct e; reflexivity).
  unfold enumerate, begin_.
  rewrite HostFacts.run_bind. cbn beta zeta. cbn [value trace final].
  rewrite HostFacts.run_bind. cbn beta zeta. cbn [value trace final].
  set (o0 := run H (call (Thunk (ctor_addr e) this (ctor_args e))) s).
  destruct (run_incr hdr H (final o0) e this) as (r & Ht & Hval).
  intros Hv.
  destruct (area_for_loop_spec hdr H e this fuel _ _ units Hv)
    as (Hall & replies & Htr & Hres).
  assert (Hc : exists rC, trace o0
                          = [mkEvent (Thunk (ctor_addr e) this (ctor_args e)) rC]).
  { unfold o0, call. simpl. host_step. eexists. reflexivity. }
  destruct Hc as (rC & Hc).
  exists rC, (r :: replies). split; [| split; [| exact Hall]].
  - rewrite Hc, Ht, Htr. reflexivity.
  - change (mkUnit (Unit_null hdr)) with (Game.Unit_default hdr).
    simpl. rewrite <- Hval. exact Hres.
Qed.

(** A host whose [GetNext] stores the ids 5, then 8, then nothing. *)
Lemma area_enumerate_yields_live_units_witness :
  let host := mkModel nat (fun a n =>
                (mkReply 0 (match a, n with
                            | Thunk _ _ (VRef _ :: _), 1%nat => Some 5
                            | Thunk _ _ (VRef _ :: _), 2%nat => Some 8
                            | _, _ => None
                            end), S n)) in
  let e := InRangeEnumerator (mkLocation 10 10) 3 in
  let o := run host (enumerate sample_headers 5 e 4096) 0%nat in
  exists rC replies,
    trace o
    = mkEvent (Thunk 0x47A740 4096 [VLoc (mkLocation 10 10); VInt 3]) rC
      :: List.map (mkEvent (Thunk 0x47A780 4096 [VRef 0])) replies
    /\ List.map (fun r => match stored r with
                          | Some id => mkUnit id
                          | None => mkUnit 0
                          end) replies
       = [mkUnit 5; mkUnit 8] ++ [mkUnit 0]
    /\ Forall (fun u => id_ u <> 0) [mkUnit 5; mkUnit 8].
Proof.
  cbn zeta.
  apply (area_enumerate_yields_live_units sample_headers
           (mkModel nat (fun a n =>
                (mkReply 0 (match a, n with
                            | Thunk _ _ (VRef _ :: _), 1%nat => Some 5
                            | Thunk _ _ (VRef _ :: _), 2%nat => Some 8
                            | _, _ => None
                            end), S n)))
           0%nat 5 (InRangeEnumerator (mkLocation 10 10) 3) 4096
           [mkUnit 5; mkUnit 8]).
  reflexivity.
Defined.

Example area_enumerate_values :
  value (run counting_host
           (enumerate sample_headers 5 (LocationEnumerator (mkLocation 2 2)) 4096) 0%nat)
  = Some []
  /\ List.map access
       (trace (run counting_host
                 (enumerate sample_headers 5 (LocationEnumerator (mkLocation 2 2)) 4096)
                 0%nat))
     = [Thunk 0x47A6D0 4096 [VLoc (mkLocation 2 2)]; Thunk 0x47A710 4096 [VRef 0]].
Proof. split; reflexivity. Qed.

End AreaEnumeratorsFacts.

(* ===================================================================== *)
(** * Properties of Resource/OP2Ext.h *)
(* ===================================================================== *)

Module OP2ExtFacts.
Import OP2Ext.

Section WithLibrary.
Variable St : Type.
Variable FnCount : St -> Z * St.
Variable FnGet : Z -> Z -> St -> (Z * string) * St.

Lemma fill_spec (count : Z) :
  forall (fuel : nat) (i : Z) (out : list string) (s : St),
    (Z.to_nat (count - i) < fuel)%nat ->
    exists rest s',
      fill St FnGet fuel i count out s = Some (out ++ rest, s')
      /\ length rest = Z.to_nat (count - i).
Proof.
  induction fuel as [| fuel IH]; intros i out s Hfuel; [lia |].
  simpl. destruct (Z.ltb_spec i count) as [Hlt | Hge].
  - destruct (GetStringHelper St FnGet 1024 i s) as [str s1].
    destruct (IH (i + 1) (out ++ [str]) s1 ltac:(lia)) as (rest & s' & Hrun & Hlen).
    exists (str :: rest), s'. split.
    + rewrite Hrun, <- app_assoc. reflexivity.
    + simpl. rewrite Hlen. lia.
  - exists [], s. split; [rewrite app_nil_r; reflexivity |].
    simpl. lia.
Qed.

End WithLibrary.

(** The first call of a module list getter, on an empty static vector,
    terminates and returns one string per module the library counts; the
    static vector then holds that list. *)
Theorem GetModList_first_call (St : Type) (FnCount : St -> Z * St)
    (FnGet : Z -> Z -> St -> (Z * string) * St) (fuel : nat) (s : St) :
  (Z.to_nat (fst (FnCount s)) < fuel)%nat ->
  exists names s',
    GetModList St FnCount FnGet fuel [] s = Some (names, names, s')
    /\ length names = Z.to_nat (fst (FnCount s)).
Proof.
  intros Hfuel. unfold GetModList, GetModListHelper.
  destruct (FnCount s) as [count s1]. simpl in Hfuel.
  destruct (fill_spec St FnGet count fuel 0 [] s1) as (names & s' & Hrun & Hlen).
  { rewrite Z.sub_0_r. exact Hfuel. }
  rewrite Hrun. simpl. exists names, s'. split; [reflexivity |].
  rewrite Hlen, Z.sub_0_r. reflexivity.
Qed.

Lemma GetModList_first_call_witness :
  exists names s',
    GetModList nat (fun n => (2, n)) (fun i _ n => ((0, "mod"%string), S n)) 3 [] 0%nat
    = Some (names, names, s')
    /\ length names = Z.to_nat 2.
Proof.
  apply (GetModList_first_call nat (fun n => (2, n))
           (fun i _ n => ((0, "mod"%string), S n)) 3 0%nat).
  simpl. lia.
Defined.

(** Once a call has returned a nonempty list, every later call returns that
    same list without asking the library for any name, whatever the library
    would answer by then: only the count is still queried. *)
Theorem GetModList_is_cached (St : Type) (FnCount : St -> Z * St)
    (FnGet FnGet' : Z -> Z -> St -> (Z * string) * St) (fuel fuel' : nat)
    (s s2 : St) (names out : list string) (s1 : St) :
  GetModList St FnCount FnGet fuel [] s = Some (names, out, s1) ->
  names <> [] ->
  GetModList St FnCount FnGet' fuel' out s2 = Some (names, out, snd (FnCount s2)).
Proof.
  intros Hfirst Hne. unfold GetModList, GetModListHelper in *.
  destruct (FnCount s) as [count s0].
  destruct (fill St FnGet fuel 0 count [] s0) as [[out0 s0'] |] eqn:Hfill;
    simpl in Hfirst; [| discriminate Hfirst].
  injection Hfirst as <- <- <-.
  destruct (FnCount s2) as [count2 s2']. simpl.
  destruct out0 as [| name rest]; [contradiction | reflexivity].
Qed.

Lemma GetModList_is_cached_witness :
  GetModList nat (fun n => (2, n)) (fun i _ n => ((0, "other"%string), S n)) 0
    ["mod"%string; "mod"%string] 9%nat
  = Some (["mod"%string; "mod"%string], ["mod"%string; "mod"%string], 9%nat).
Proof.
  apply (GetModList_is_cached nat (fun n => (2, n))
           (fun i _ n => ((0, "mod"%string), S n))
           (fun i _ n => ((0, "other"%string), S n)) 3 0 0%nat 9%nat
           ["mod"%string; "mod"%string] ["mod"%string; "mod"%string] 2%nat).
  - reflexivity.
  - discriminate.
Defined.

End OP2ExtFacts.

Module WreckageFacts.
Import Game.

(** For a tech id in range, [CreateWreckage] reports a refused host call as
    the default unit without reading anything further, and an accepted one
    as the unit at the head of player 6's beacon list. *)
Theorem CreateWreckage_result (hdr : Headers) (H : Model) (s : state H)
    (location : Location) (techID : Z) (isDiscovered : bool) :
  8000 <= techID <= 12095 ->
  let o := run H (CreateWreckage hdr location techID isDiscovered) s in
  exists r rest,
    trace o
    = mkEvent (OP2Thunk 0x4789F0 [VInt (x location); VInt (y location);
                                   VInt techID; VInt (ibool_of isDiscovered)]) r
      :: rest
    /\ (ret r = 0 -> rest = [] /\ value o = Unit_default hdr)
    /\ (ret r <> 0 ->
        exists rP rB rU,
          rest = [mkEvent (Extern "_Player::GetInstance" [VInt 6]) rP;
                  mkEvent (Extern "_Player::GetBeacons" [VInt (ret rP)]) rB;
                  mkEvent (Deref (ret rB)) rU]
          /\ value o = mkUnit (ret rU)).
Proof.
  intros Hin. cbn zeta. unfold CreateWreckage.
  assert (Hguard : (techID >=? 8000) && (techID <=? 12095) = true).
  { apply andb_true_iff. split; lia. }
  rewrite Hguard. unfold thunk, first_beacon, extern, truthy. simpl. host_step.
  destruct (Z.eqb_spec (ret r) 0) as [Hz | Hnz]; simpl.
  - eexists _, _. split; [reflexivity |].
    split; [intros _; split; reflexivity | intros; contradiction].
  - do 3 host_step. eexists _, _. split; [reflexivity |].
    split; [intros; contradiction |].
    intros _. eexists _, _, _. split; reflexivity.
Qed.

Lemma CreateWreckage_result_witness :
  let o := run counting_host (CreateWreckage sample_headers (mkLocation 3 4) 8000 true) 0%nat in
  exists r rest,
    trace o
    = mkEvent (OP2Thunk 0x4789F0 [VInt 3; VInt 4; VInt 8000; VInt 1]) r :: rest
    /\ (ret r = 0 -> rest = [] /\ value o = Unit_default sample_headers)
    /\ (ret r <> 0 ->
        exists rP rB rU,
          rest = [mkEvent (Extern "_Player::GetInstance" [VInt 6]) rP;
                  mkEvent (Extern "_Player::GetBeacons" [VInt (ret rP)]) rB;
                  mkEvent (Deref (ret rB)) rU]
          /\ value o = mkUnit (ret rU)).
Proof.
  apply (CreateWreckage_result sample_headers counting_host 0%nat (mkLocation 3 4)
           8000 true).
  lia.
Defined.

End WreckageFacts.
